(** * Daily usage-submission gate of the OwnDiary app

    A shallow embedding of [src/services/usageScheduler.ts] together with
    the parts of the usage collector wrapper ([usageNative.ts]) and of the
    Supabase layer ([./supabase]) it calls.  Asynchronous functions are
    sequential here (every promise is awaited at once in the source), so an
    [async] function becomes a computation in a state-and-exception monad
    over the persisted world. *)

From Stdlib Require Import Ascii String ZArith QArith Qround Sorted Lia.

From stdpp Require Import gmap strings list pretty.

Local Open Scope string_scope.

Local Open Scope Z_scope.

(** ** JavaScript primitives used by the scheduler *)

Module JS.

(** [x || y] on strings: the empty string is falsy. *)
Definition truthy_string (s : string) : bool :=
  match s with EmptyString => false | _ => true end.

(** [String.prototype.padStart(n, "0")]. *)
Definition padStart0 (n : nat) (s : string) : string :=
  String.concat "" (replicate (n - String.length s) "0") +:+ s.

Definition is_digit (c : ascii) : bool :=
  let n := nat_of_ascii c in (48 <=? n)%nat && (n <=? 57)%nat.

Definition digit_value (c : ascii) : Z := Z.of_nat (nat_of_ascii c) - 48.

(** [String.prototype.split(sep)] for a one-character separator. *)
Fixpoint split_on (sep : ascii) (s : string) : list string :=
  match s with
  | EmptyString => [EmptyString]
  | String c rest =>
      if Ascii.eqb c sep then EmptyString :: split_on sep rest
      else match split_on sep rest with
           | [] => [String c EmptyString]
           | piece :: pieces => String c piece :: pieces
           end
  end.

Fixpoint digits_value (acc : Z) (s : string) : option Z :=
  match s with
  | EmptyString => Some acc
  | String c rest =>
      if is_digit c then digits_value (10 * acc + digit_value c) rest
      else None
  end.

(** [Number(s)], with [None] standing for [NaN].  The conversion is exact
    on strings of decimal digits (the empty string converts to 0), which
    is all that the time format [HH:mm] can hand to it; every other
    string, and [undefined] (passed as [None]), is mapped to [NaN]. *)
Definition Number (s : option string) : option Z :=
  match s with
  | Some s => digits_value 0 s
  | None => None
  end.

(** [a < b] on numbers: any comparison with [NaN] is false. *)
Definition lt (a b : option Z) : bool :=
  match a, b with
  | Some x, Some y => x <? y
  | _, _ => false
  end.

(** [Math.round(q)]: the nearest integer, halves rounded towards
    positive infinity. *)
Definition Math_round (q : Q) : Z := Qfloor (q + (1 # 2))%Q.

Definition is_space (c : ascii) : bool :=
  let n := nat_of_ascii c in
  ((9 <=? n)%nat && (n <=? 13)%nat) || (n =? 32)%nat.

Fixpoint trimStart (s : string) : string :=
  match s with
  | String c rest => if is_space c then trimStart rest else s
  | EmptyString => EmptyString
  end.

(** [s.trim()] is empty exactly when [s] holds white space only. *)
Definition trim_is_empty (s : string) : bool :=
  negb (truthy_string (trimStart s)).

End JS.

(** ** Anchored regular expressions of fixed shape

    The only pattern of the module is [/^\d{2}:\d{2}$/]: a sequence of
    single-character classes between the two anchors.  Without the [m]
    flag [$] matches at the very end of the input only. *)

Inductive CharClass :=
| Digit
| Lit (c : ascii).

Definition class_matches (k : CharClass) (c : ascii) : bool :=
  match k with
  | Digit => JS.is_digit c
  | Lit c' => Ascii.eqb c c'
  end.

Fixpoint regex_test (pat : list CharClass) (s : string) : bool :=
  match pat, s with
  | [], EmptyString => true
  | k :: pat', String c s' => class_matches k c && regex_test pat' s'
  | _, _ => false
  end.

(** [/^\d{2}:\d{2}$/] *)
Definition HHMM_REGEX : list CharClass :=
  [Digit; Digit; Lit ":"%char; Digit; Digit].

(** ** Configuration constants *)

Definition DEFAULT_DAILY_TIME_HHMM : string := "21:00".

Definition STORAGE_LAST_SUBMITTED_DATE : string := "usage:lastSubmittedISODate".

Definition STORAGE_DAILY_TARGET_HHMM : string := "usage:dailyTargetHHmm".

Definition STORAGE_QIDS : string := "usage:questionIds.v1".

Definition Q_TEXT_TOTAL : string := "Wie lange warst du heute am Handy? (Automatisch)".

Definition Q_TEXT_SOCIAL : string := "Zeit auf Social Media heute (Automatisch)".

Definition Q_TEXT_MUSIC : string := "Zeit Musik/Audio heute (Automatisch)".

Definition Q_TEXT_LAST_APP : string := "Letzte App vor dem Schlafen (Automatisch)".

(** ** Pure helpers of the scheduler *)

(** The local-time fields of a JavaScript [Date] that the module reads. *)
Record Date := {
  getFullYear : Z;
  getMonth : nat;      (* 0-based, as in JavaScript *)
  getDate : nat;
  getHours : nat;
  getMinutes : nat
}.

Definition toISODate (d : Date) : string :=
  let y := pretty (getFullYear d) in
  let m := JS.padStart0 2 (pretty (getMonth d + 1)%nat) in
  let da := JS.padStart0 2 (pretty (getDate d)) in
  y +:+ "-" +:+ m +:+ "-" +:+ da.

Definition toHHmm (d : Date) : string :=
  let h := JS.padStart0 2 (pretty (getHours d)) in
  let mi := JS.padStart0 2 (pretty (getMinutes d)) in
  h +:+ ":" +:+ mi.

Definition toMinutesSinceMidnight (d : Date) : Z :=
  Z.of_nat (getHours d) * 60 + Z.of_nat (getMinutes d).

(** [const [h, m] = hhmm.split(":").map(Number); return h * 60 + m]. *)
Definition hhmmToMinutes (hhmm : string) : option Z :=
  let parts := JS.split_on ":"%char hhmm in
  match JS.Number (parts !! 0%nat), JS.Number (parts !! 1%nat) with
  | Some h, Some m => Some (h * 60 + m)
  | _, _ => None
  end.

Definition msToMinutes (ms : Z) : Z :=
  Z.max 0 (JS.Math_round (inject_Z ms / 60000)%Q).

(** ** Data model *)

Inductive AnswerType :=
| AT_boolean | AT_number | AT_scale | AT_text | AT_multi | AT_time
| AT_boolean_then_time.

Inductive ForDay := today | yesterday.

Inductive EntryValue :=
| VBool (b : bool)
| VNumber (n : Z)
| VString (s : string)
| VStrings (l : list string)
| VNull.

(** Client-side [Question] (the fields the scheduler sets or reads). *)
Module Question.

Record t := {
  id : Z;
  groupId : option Z;
  question : string;
  answerType : AnswerType;
  min : option Z;
  unit : option string;
  order : option Z;
  active : option bool;
  timeOfDay : string;
  refDay : string
}.

End Question.

(** Client-side [DiaryEntry]. *)
Module DiaryEntry.

Record t := {
  id : Z;
  questionID : Z;
  date : string;
  time : string;
  value : EntryValue;
  forDay : option ForDay
}.

End DiaryEntry.

(** A row of table [public.questions]. *)
Record QuestionRow := {
  q_id : Z;
  q_group_id : option Z;
  q_question : string;
  q_answer_type : AnswerType;
  q_min : option Z;
  q_unit : option string;
  q_order : option Z;
  q_active : option bool;
  q_time_of_day : string;
  q_ref_day : string
}.

(** A row of table [public.diary_entries]. *)
Record EntryRow := {
  e_id : Z;
  e_question_id : Z;
  e_date : string;
  e_time : string;
  e_value : EntryValue;
  e_for_day : ForDay
}.

Record LastApp := {
  packageName : string;
  label : option string;
  lastUsedAt : Z
}.

Record UsageSummary := {
  totalScreenTimeMs : Z;
  socialMs : Z;
  musicMs : Z;
  lastApp : option LastApp;
  generatedAt : Z
}.

Module UsageQuestionIds.

Record t := {
  totalMinutes : Z;
  socialMinutes : Z;
  musicMinutes : Z;
  lastApp : Z
}.

End UsageQuestionIds.

Record NativeConfig := {
  social : list string;
  music : list string
}.

(** Values of [JSON.parse].  Numbers are integers here: question
    identifiers are identity-column values. *)
#[warnings="-register-all"]

Inductive JSON :=
| JNull
| JBool (b : bool)
| JNumber (n : Z)
| JString (s : string)
| JArray (l : list JSON)
| JObject (fields : list (string * JSON)).

#[global] Instance ForDay_eq_dec : EqDecision ForDay.
Proof. solve_decision. Defined.

(** ** Errors, effects and the world *)

Inductive Error :=
| InvalidTimeFormat        (* Invalid time format. Expected HH:mm. *)
| PlatformUnsupported      (* Usage stats are only available on Android. *)
| CollectorUnavailable     (* Usage stats native module is not available. *)
| CollectorFailed          (* the native call rejected *)
| TypeError                (* calling something that is not a function *)
| MissingSupabaseUrl       (* Missing EXPO_PUBLIC_SUPABASE_URL. *)
| MissingSupabaseAnonKey   (* Missing EXPO_PUBLIC_SUPABASE_ANON_KEY. *)
| StoreError (ctx : string). (* [Supabase] ctx failed: ... *)

Inductive Outcome (A : Type) :=
| Ok (a : A)
| Throw (e : Error).
Arguments Ok {A} a.
Arguments Throw {A} e.

(** What a native method call settles to. *)
Inductive Settled (A : Type) :=
| Resolves (a : A)
| Rejects.
Arguments Resolves {A} a.
Arguments Rejects {A}.

(** The native module is a [Partial<UsageStatsModule>]: a method that is
    [None] is not a function. *)
Record NativeModule := {
  isUsageAccessGranted : option (Settled bool);
  getTodayUsageSummary_native : option (NativeConfig -> Settled UsageSummary)
}.

(** Everything an invocation reads from outside the persisted world. *)
Record Env := {
  Platform_OS : string;
  EXPO_PUBLIC_SUPABASE_URL : option string;
  EXPO_PUBLIC_SUPABASE_ANON_KEY : option string;
  _native : option NativeModule;
  new_Date : Date;
  (** the n-th request ever sent to the remote store is answered with an
      error (and then has no effect on the tables) *)
  request_fails : nat -> bool
}.

Inductive RemoteRequest :=
| SelectQuestions
| InsertQuestion (text : string) (ord : Z)
| DeleteEntries (qid : Z) (d : string) (fd : ForDay)
| InsertEntry (qid : Z) (d : string) (fd : ForDay) (v : EntryValue).

Inductive LogLine :=
| LogSupabaseNotConfigured
| LogNativeModuleNotAvailable
| LogUsageAccessNotGranted
| LogSentUsage (total social music : Z) (last : string).

Inductive Event :=
| EvLog (l : LogLine)
| EvNativeCall (method : string)
| EvStorageSet (key val : string)
| EvRequest (r : RemoteRequest).

(** The persisted world: the local key-value store, the two remote tables
    with their identity counters, the number of requests the remote store
    has received, and a journal of effects (most recent first). *)
Record World := {
  storage : gmap string string;
  questions : list QuestionRow;
  next_question_id : Z;
  diary_entries : list EntryRow;
  next_entry_id : Z;
  requests : nat;
  journal : list Event
}.

Definition is_write (e : Event) : bool :=
  match e with
  | EvStorageSet _ _ => true
  | EvRequest SelectQuestions => false
  | EvRequest _ => true
  | _ => false
  end.

(** The write effects recorded in a journal. *)
Definition writes (j : list Event) : list Event := List.filter is_write j.

Definition with_storage (f : gmap string string -> gmap string string)
    (w : World) : World :=
  {| storage := f (storage w); questions := questions w;
     next_question_id := next_question_id w;
     diary_entries := diary_entries w; next_entry_id := next_entry_id w;
     requests := requests w; journal := journal w |}.

Definition record (e : Event) (w : World) : World :=
  {| storage := storage w; questions := questions w;
     next_question_id := next_question_id w;
     diary_entries := diary_entries w; next_entry_id := next_entry_id w;
     requests := requests w; journal := e :: journal w |}.

Definition count_request (w : World) : World :=
  {| storage := storage w; questions := questions w;
     next_question_id := next_question_id w;
     diary_entries := diary_entries w; next_entry_id := next_entry_id w;
     requests := S (requests w); journal := journal w |}.

Definition add_question (r : QuestionRow) (w : World) : World :=
  {| storage := storage w; questions := questions w ++ [r];
     next_question_id := next_question_id w + 1;
     diary_entries := diary_entries w; next_entry_id := next_entry_id w;
     requests := requests w; journal := journal w |}.

Definition with_entries (es : list EntryRow) (next : Z) (w : World) : World :=
  {| storage := storage w; questions := questions w;
     next_question_id := next_question_id w;
     diary_entries := es; next_entry_id := next;
     requests := requests w; journal := journal w |}.

(** ** The monad of asynchronous functions *)

Definition M (A : Type) : Type := World -> Outcome A * World.

Definition ret {A} (a : A) : M A := fun w => (Ok a, w).

Definition throw {A} (e : Error) : M A := fun w => (Throw e, w).

Definition bind {A B} (m : M A) (k : A -> M B) : M B :=
  fun w =>
    match m w with
    | (Ok a, w') => k a w'
    | (Throw e, w') => (Throw e, w')
    end.

(** [try { m } catch { h }] *)
Definition try_catch {A} (m : M A) (h : Error -> M A) : M A :=
  fun w =>
    match m w with
    | (Ok a, w') => (Ok a, w')
    | (Throw e, w') => h e w'
    end.

Definition emit (e : Event) : M unit := fun w => (Ok tt, record e w).

Declare Scope js_scope.

Delimit Scope js_scope with js.

Notation "x <- m ;; k" := (bind m (fun x => k))
  (at level 100, m at next level, right associativity) : js_scope.

Notation "m ;; k" := (bind m (fun _ => k))
  (at level 100, right associativity) : js_scope.

Local Open Scope js_scope.

(** [for (const x of xs) await f(x)] *)
Fixpoint for_each {A} (f : A -> M unit) (xs : list A) : M unit :=
  match xs with
  | [] => ret tt
  | x :: xs' => f x ;; for_each f xs'
  end.

Definition log (l : LogLine) : M unit := emit (EvLog l).

(** ** Local key-value store (AsyncStorage) *)

Module AsyncStorage.

Definition getItem (key : string) : M (option string) :=
  fun w => (Ok (storage w !! key), w).

Definition setItem (key val : string) : M unit :=
  fun w => (Ok tt, record (EvStorageSet key val)
                     (with_storage (insert key val) w)).

End AsyncStorage.

(** ** Usage collector (usageNative.ts) *)

Definition DefaultPackages : NativeConfig :=
  {| social :=
       ["com.instagram.android"; "com.zhiliaoapp.musically";
        "com.ss.android.ugc.trill"; "com.facebook.katana";
        "com.twitter.android"; "com.reddit.frontpage";
        "com.snapchat.android"; "com.discord"; "com.whatsapp";
        "org.thoughtcrime.securesms"; "com.facebook.orca";
        "com.telegram.messenger"; "org.telegram.messenger";
        "com.linkedin.android"];
     music :=
       ["com.spotify.music"; "com.google.android.apps.youtube.music";
        "com.soundcloud.android"; "deezer.android.app";
        "com.apple.android.music"; "com.amazon.mp3";
        "com.pandora.android"] |}.

Definition is_android (env : Env) : bool :=
  String.eqb (Platform_OS env) "android".

Definition isUsageStatsAvailable (env : Env) : bool :=
  is_android env &&
  match _native env with
  | Some n =>
      bool_decide (is_Some (isUsageAccessGranted n)) &&
      bool_decide (is_Some (getTodayUsageSummary_native n))
  | None => false
  end.

Definition settle {A} (s : Settled A) : M A :=
  match s with
  | Resolves a => ret a
  | Rejects => throw CollectorFailed
  end.

(** [(_native as UsageStatsModule).isUsageAccessGranted()] *)
Definition call_isUsageAccessGranted (env : Env) : M bool :=
  emit (EvNativeCall "isUsageAccessGranted") ;;
  match _native env with
  | Some {| isUsageAccessGranted := Some s |} => settle s
  | _ => throw TypeError
  end.

(** [(_native as UsageStatsModule).getTodayUsageSummary(payload)] *)
Definition call_getTodayUsageSummary (env : Env) (payload : NativeConfig)
    : M UsageSummary :=
  emit (EvNativeCall "getTodayUsageSummary") ;;
  match _native env with
  | Some {| getTodayUsageSummary_native := Some f |} => settle (f payload)
  | _ => throw TypeError
  end.

Definition hasUsageAccess (env : Env) : M bool :=
  if negb (is_android env) || negb (isUsageStatsAvailable env) then ret false
  else try_catch (call_isUsageAccessGranted env) (fun _ => ret false).

Definition guardAndroid (env : Env) : M unit :=
  if negb (is_android env) then throw PlatformUnsupported else ret tt.

Definition guardNative (env : Env) : M unit :=
  if negb (isUsageStatsAvailable env) then throw CollectorUnavailable
  else ret tt.

Definition getTodayUsageSummary (env : Env)
    (config : option (option (list string) * option (list string)))
    : M UsageSummary :=
  guardAndroid env ;;
  guardNative env ;;
  let payload :=
    {| social := default (social DefaultPackages) (config ≫= fst);
       music := default (music DefaultPackages) (config ≫= snd) |} in
  call_getTodayUsageSummary env payload.

(** ** Remote data store (supabase.ts) *)

Definition truthy_env (v : option string) : bool :=
  match v with Some s => JS.truthy_string s | None => false end.

Definition isSupabaseConfigured (env : Env) : bool :=
  truthy_env (EXPO_PUBLIC_SUPABASE_URL env) &&
  truthy_env (EXPO_PUBLIC_SUPABASE_ANON_KEY env).

Definition blank_env (v : option string) : bool :=
  match v with Some s => JS.trim_is_empty s | None => true end.

(** [getSupabaseClient]: [readEnv] throws when a variable is missing or
    blank.  The environment does not change during an invocation, so the
    cached singleton client is not represented. *)
Definition getSupabaseClient (env : Env) : M unit :=
  if blank_env (EXPO_PUBLIC_SUPABASE_URL env) then throw MissingSupabaseUrl
  else if blank_env (EXPO_PUBLIC_SUPABASE_ANON_KEY env)
       then throw MissingSupabaseAnonKey
  else ret tt.

(** One request to the remote store: it is journalled and counted; the
    store answers with an error, leaving the tables as they are, or applies
    [effect]. *)
Definition request {A} (env : Env) (r : RemoteRequest) (ctx : string)
    (effect : World -> A * World) : M A :=
  fun w =>
    let w1 := count_request (record (EvRequest r) w) in
    if request_fails env (requests w) then (Throw (StoreError ctx), w1)
    else let (a, w2) := effect w1 in (Ok a, w2).

(** [ORDER BY "order" ASC NULLS FIRST, id ASC] *)
Definition row_le (r1 r2 : QuestionRow) : bool :=
  match q_order r1, q_order r2 with
  | None, None => q_id r1 <=? q_id r2
  | None, Some _ => true
  | Some _, None => false
  | Some x, Some y => (x <? y) || ((x =? y) && (q_id r1 <=? q_id r2))
  end.

Fixpoint insert_row (r : QuestionRow) (l : list QuestionRow)
    : list QuestionRow :=
  match l with
  | [] => [r]
  | r' :: l' => if row_le r r' then r :: l else r' :: insert_row r l'
  end.

Definition order_rows (l : list QuestionRow) : list QuestionRow :=
  foldr insert_row [] l.

(** [.or("active.is.null,active.eq.true")] *)
Definition active_or_null (r : QuestionRow) : bool :=
  match q_active r with
  | Some false => false
  | _ => true
  end.

(** [toQuestion]; its [null] branch needs a row without [id], which the
    primary key excludes. *)
Definition toQuestion (row : QuestionRow) : Question.t :=
  {| Question.id := q_id row;
     Question.groupId := q_group_id row;
     Question.question := q_question row;
     Question.answerType := q_answer_type row;
     Question.min := q_min row;
     Question.unit := q_unit row;
     Question.order := q_order row;
     Question.active := q_active row;
     Question.timeOfDay := q_time_of_day row;
     Question.refDay := q_ref_day row |}.

Definition select_questions (w : World) : list QuestionRow :=
  order_rows (List.filter active_or_null (questions w)).

Definition supaGetQuestions (env : Env) : M (list Question.t) :=
  getSupabaseClient env ;;
  request env SelectQuestions "questions select"
    (fun w => (toQuestion <$> select_questions w, w)).

(** The row the store creates for an insert payload: the identity column
    is assigned by the store.  [input] carries [id] only to reuse the type;
    the source passes an [Omit<Question, "id">]. *)
Definition question_row (new_id : Z) (input : Question.t) : QuestionRow :=
  {| q_id := new_id;
     q_group_id := Question.groupId input;
     q_question := Question.question input;
     q_answer_type := Question.answerType input;
     q_min := Question.min input;
     q_unit := Question.unit input;
     q_order := Some (default 0 (Question.order input));
     q_active := Some (default true (Question.active input));
     q_time_of_day := Question.timeOfDay input;
     q_ref_day := Question.refDay input |}.

Definition supaInsertQuestion (env : Env) (input : Question.t)
    : M Question.t :=
  getSupabaseClient env ;;
  request env
    (InsertQuestion (Question.question input)
       (default 0 (Question.order input)))
    "questions insert"
    (fun w =>
       let row := question_row (next_question_id w) input in
       (toQuestion row, add_question row w)).

(** [String(entry.forDay ?? "today")] *)
Definition for_day_of (entry : DiaryEntry.t) : ForDay :=
  default today (DiaryEntry.forDay entry).

Definition same_slot (qid : Z) (d : string) (fd : ForDay) (r : EntryRow)
    : bool :=
  (e_question_id r =? qid) && String.eqb (e_date r) d &&
  bool_decide (e_for_day r = fd).

Definition toDiaryEntryInsert (new_id : Z) (entry : DiaryEntry.t) : EntryRow :=
  {| e_id := new_id;
     e_question_id := DiaryEntry.questionID entry;
     e_date := DiaryEntry.date entry;
     e_time := DiaryEntry.time entry;
     e_value := DiaryEntry.value entry;
     e_for_day := for_day_of entry |}.

Definition supaSetDiaryEntry (env : Env) (entry : DiaryEntry.t) : M unit :=
  getSupabaseClient env ;;
  let qid := DiaryEntry.questionID entry in
  let d := DiaryEntry.date entry in
  let fd := for_day_of entry in
  request env (DeleteEntries qid d fd) "diary_entries delete (set)"
    (fun w =>
       (tt, with_entries
              (List.filter (fun r => negb (same_slot qid d fd r))
                 (diary_entries w))
              (next_entry_id w) w)) ;;
  request env (InsertEntry qid d fd (DiaryEntry.value entry))
    "diary_entries insert (set)"
    (fun w =>
       (tt, with_entries
              (diary_entries w ++ [toDiaryEntryInsert (next_entry_id w) entry])
              (next_entry_id w + 1) w)).

(** ** The scheduler (usageScheduler.ts) *)

Definition setDailyTargetTime (hhmm : string) : M unit :=
  if negb (regex_test HHMM_REGEX hhmm) then throw InvalidTimeFormat
  else AsyncStorage.setItem STORAGE_DAILY_TARGET_HHMM hhmm.

Definition getDailyTargetTime : M string :=
  v <- AsyncStorage.getItem STORAGE_DAILY_TARGET_HHMM ;;
  ret (match v with
       | Some s =>
           if JS.truthy_string s && regex_test HHMM_REGEX s then s
           else DEFAULT_DAILY_TIME_HHMM
       | None => DEFAULT_DAILY_TIME_HHMM
       end).

Definition isSubmissionDue (now : Date) (targetHHmm : string) : M bool :=
  last <- AsyncStorage.getItem STORAGE_LAST_SUBMITTED_DATE ;;
  let todayISO := toISODate now in
  if bool_decide (last = Some todayISO) then ret false
  else
    let minsNow := toMinutesSinceMidnight now in
    let minsTarget := hhmmToMinutes targetHHmm in
    if JS.lt (Some minsNow) minsTarget then ret false
    else ret true.

Definition markSubmittedForToday (now : Date) : M unit :=
  let todayISO := toISODate now in
  AsyncStorage.setItem STORAGE_LAST_SUBMITTED_DATE todayISO.

Record CollectOptions := {
  at_ : option Date;
  targetHHmm : option string;
  enforce : option bool
}.

(** [new Map(all.map((q) => [q.question, q]))]: a later pair replaces an
    earlier one with the same key. *)
Definition Map_of (pairs : list (string * Question.t))
    : gmap string Question.t :=
  foldl (fun m kv => <[kv.1 := kv.2]> m) ∅ pairs.

Definition get_prop (v : JSON) (key : string) : option JSON :=
  match v with
  | JObject fields =>
      snd <$> List.find (fun kv => String.eqb (fst kv) key) fields
  | _ => None
  end.

Definition typeof_number (p : option JSON) : bool :=
  match p with
  | Some (JNumber _) => true
  | _ => false
  end.

Definition truthy (v : JSON) : bool :=
  match v with
  | JNull => false
  | JBool b => b
  | JNumber n => negb (n =? 0)
  | JString s => JS.truthy_string s
  | JArray _ | JObject _ => true
  end.

Definition areValidQids (v : JSON) : bool :=
  truthy v &&
  typeof_number (get_prop v "totalMinutes") &&
  typeof_number (get_prop v "socialMinutes") &&
  typeof_number (get_prop v "musicMinutes") &&
  typeof_number (get_prop v "lastApp").

Definition number_prop (v : JSON) (key : string) : Z :=
  match get_prop v key with
  | Some (JNumber n) => n
  | _ => 0
  end.

(** A parsed value read at type [UsageQuestionIds]. *)
Definition as_qids (v : JSON) : UsageQuestionIds.t :=
  {| UsageQuestionIds.totalMinutes := number_prop v "totalMinutes";
     UsageQuestionIds.socialMinutes := number_prop v "socialMinutes";
     UsageQuestionIds.musicMinutes := number_prop v "musicMinutes";
     UsageQuestionIds.lastApp := number_prop v "lastApp" |}.

Definition qids_json (q : UsageQuestionIds.t) : JSON :=
  JObject
    [("totalMinutes", JNumber (UsageQuestionIds.totalMinutes q));
     ("socialMinutes", JNumber (UsageQuestionIds.socialMinutes q));
     ("musicMinutes", JNumber (UsageQuestionIds.musicMinutes q));
     ("lastApp", JNumber (UsageQuestionIds.lastApp q))].

Section Scheduler.

(** The runtime's JSON codec.  [JSON_parse s = None] when [JSON.parse]
    throws a [SyntaxError]. *)
Variable JSON_parse : string -> option JSON.
Variable JSON_stringify : JSON -> string.

(** The cached registry, when the cache holds one that is valid. *)
Definition cached_qids (cached : option string)
    : option UsageQuestionIds.t :=
  match cached with
  | Some s =>
      if JS.truthy_string s then
        match JSON_parse s with
        | Some parsed =>
            if areValidQids parsed then Some (as_qids parsed) else None
        | None => None
        end
      else None
  | None => None
  end.

(** The closure [ensure] of [ensureUsageQuestions]. *)
Definition ensure (env : Env) (all : list Question.t)
    (mapByText : gmap string Question.t)
    (text : string) (answerType : AnswerType) (unit : option string)
    : M Z :=
  match mapByText !! text with
  | Some existing => ret (Question.id existing)
  | None =>
      created <- supaInsertQuestion env
        {| Question.id := 0;
           Question.groupId := None;
           Question.question := text;
           Question.answerType := answerType;
           Question.min :=
             match answerType with AT_number => Some 0 | _ => None end;
           Question.unit := unit;
           Question.order := Some (Z.of_nat (length all) + 1);
           Question.active := Some true;
           Question.timeOfDay := "evening";
           Question.refDay := "today" |} ;;
      ret (Question.id created)
  end.

Definition ensureUsageQuestions (env : Env) : M UsageQuestionIds.t :=
  cached <- AsyncStorage.getItem STORAGE_QIDS ;;
  match cached_qids cached with
  | Some parsed => ret parsed
  | None =>
      all <- supaGetQuestions env ;;
      let mapByText :=
        Map_of ((fun q => (Question.question q, q)) <$> all) in
      totalId <- ensure env all mapByText Q_TEXT_TOTAL AT_number (Some "Min") ;;
      socialId <- ensure env all mapByText Q_TEXT_SOCIAL AT_number (Some "Min") ;;
      musicId <- ensure env all mapByText Q_TEXT_MUSIC AT_number (Some "Min") ;;
      lastAppId <- ensure env all mapByText Q_TEXT_LAST_APP AT_text None ;;
      let qids :=
        {| UsageQuestionIds.totalMinutes := totalId;
           UsageQuestionIds.socialMinutes := socialId;
           UsageQuestionIds.musicMinutes := musicId;
           UsageQuestionIds.lastApp := lastAppId |} in
      AsyncStorage.setItem STORAGE_QIDS (JSON_stringify (qids_json qids)) ;;
      ret qids
  end.

(** [summary.lastApp?.label || summary.lastApp?.packageName || "Unbekannt"] *)
Definition lastAppLabel (summary : UsageSummary) : string :=
  let or_else (a : option string) (b : string) : string :=
    match a with
    | Some s => if JS.truthy_string s then s else b
    | None => b
    end in
  or_else (lastApp summary ≫= label)
    (or_else (packageName <$> lastApp summary) "Unbekannt").

Definition collectAndSubmit (env : Env) (opts : CollectOptions) : M unit :=
  let now := default (new_Date env) (at_ opts) in
  let todayISO := toISODate now in
  let timeHHmm := default (toHHmm now) (targetHHmm opts) in
  summary <- getTodayUsageSummary env
               (Some (Some (social DefaultPackages),
                      Some (music DefaultPackages))) ;;
  let totalMinutes := msToMinutes (totalScreenTimeMs summary) in
  let socialMinutes := msToMinutes (socialMs summary) in
  let musicMinutes := msToMinutes (musicMs summary) in
  let lastAppLabel := lastAppLabel summary in
  qids <- ensureUsageQuestions env ;;
  let entry (qid : Z) (v : EntryValue) : DiaryEntry.t :=
    {| DiaryEntry.id := 0;
       DiaryEntry.questionID := qid;
       DiaryEntry.date := todayISO;
       DiaryEntry.time := timeHHmm;
       DiaryEntry.value := v;
       DiaryEntry.forDay := Some today |} in
  let entries :=
    [entry (UsageQuestionIds.totalMinutes qids) (VNumber totalMinutes);
     entry (UsageQuestionIds.socialMinutes qids) (VNumber socialMinutes);
     entry (UsageQuestionIds.musicMinutes qids) (VNumber musicMinutes);
     entry (UsageQuestionIds.lastApp qids) (VString lastAppLabel)] in
  for_each (supaSetDiaryEntry env) entries ;;
  log (LogSentUsage totalMinutes socialMinutes musicMinutes lastAppLabel).

Definition runIfDueNow (env : Env) : M bool :=
  if negb (is_android env) then ret false
  else if negb (isSupabaseConfigured env) then
    log LogSupabaseNotConfigured ;; ret false
  else if negb (isUsageStatsAvailable env) then
    log LogNativeModuleNotAvailable ;; ret false
  else
    hasAccess <- hasUsageAccess env ;;
    if negb hasAccess then log LogUsageAccessNotGranted ;; ret false
    else
      let now := new_Date env in
      target <- getDailyTargetTime ;;
      due <- isSubmissionDue now target ;;
      if negb due then ret false
      else
        collectAndSubmit env
          {| at_ := Some now; targetHHmm := Some target;
             enforce := Some false |} ;;
        markSubmittedForToday now ;;
        ret true.

Definition runOnceNow (env : Env) : M unit :=
  collectAndSubmit env
    {| at_ := None; targetHHmm := None; enforce := Some true |}.

End Scheduler.

(** ** A reference JSON codec

    The theorems below hold for every codec.  This one, for the fragment of
    JSON the scheduler stores (objects, arrays, integers, strings without
    escapes, literals), instantiates them on concrete worlds. *)

Module RefJSON.

Definition dq : ascii := "034"%char.

Definition quote (s : string) : string := String dq (s +:+ String dq "").

Fixpoint stringify (v : JSON) : string :=
  match v with
  | JNull => "null"
  | JBool true => "true"
  | JBool false => "false"
  | JNumber n => pretty n
  | JString s => quote s
  | JArray l => "[" +:+ String.concat "," (List.map stringify l) +:+ "]"
  | JObject fields =>
      "{" +:+
      String.concat ","
        (List.map (fun kv => match kv with
                             | (k, x) => quote k +:+ ":" +:+ stringify x
                             end) fields)
      +:+ "}"
  end.

Fixpoint skip_ws (s : string) : string :=
  match s with
  | String c rest => if JS.is_space c then skip_ws rest else s
  | EmptyString => EmptyString
  end.

(** The characters up to the closing quote, and what follows it. *)
Fixpoint string_body (s : string) : option (string * string) :=
  match s with
  | EmptyString => None
  | String c rest =>
      if Ascii.eqb c dq then Some (EmptyString, rest)
      else if Ascii.eqb c "\"%char then None
      else '(body, rest') ← string_body rest; Some (String c body, rest')
  end.

Fixpoint digits (s : string) : string * string :=
  match s with
  | String c rest =>
      if JS.is_digit c then let (ds, rest') := digits rest in (String c ds, rest')
      else (EmptyString, s)
  | EmptyString => (EmptyString, EmptyString)
  end.

Definition number (s : string) : option (Z * string) :=
  let (neg, s') :=
    match s with
    | String "-" rest => (true, rest)
    | _ => (false, s)
    end in
  let (ds, rest) := digits s' in
  match ds with
  | EmptyString => None
  | _ => n ← JS.digits_value 0 ds; Some (if neg : bool then - n else n, rest)
  end.

Definition literal (lit : string) (v : JSON) (s : string)
    : option (JSON * string) :=
  if String.prefix lit s
  then Some (v, String.substring (String.length lit)
                  (String.length s - String.length lit) s)
  else None.

(** Recursive descent, bounded by [fuel].  Members are accumulated most
    recent first, so that a repeated key reads as its last value. *)
Fixpoint value (fuel : nat) (s : string) : option (JSON * string) :=
  match fuel with
  | O => None
  | S fuel =>
      match skip_ws s with
      | String "{" rest =>
          match skip_ws rest with
          | String "}" rest' => Some (JObject [], rest')
          | _ => members fuel [] rest
          end
      | String "[" rest =>
          match skip_ws rest with
          | String "]" rest' => Some (JArray [], rest')
          | _ => elements fuel [] rest
          end
      | String "t" _ as s' => literal "true" (JBool true) s'
      | String "f" _ as s' => literal "false" (JBool false) s'
      | String "n" _ as s' => literal "null" JNull s'
      | String c rest as s' =>
          if Ascii.eqb c dq
          then '(body, rest') ← string_body rest; Some (JString body, rest')
          else '(n, rest') ← number s'; Some (JNumber n, rest')
      | EmptyString => None
      end
  end
with members (fuel : nat) (acc : list (string * JSON)) (s : string)
    : option (JSON * string) :=
  match fuel with
  | O => None
  | S fuel =>
      match skip_ws s with
      | String c rest =>
          if Ascii.eqb c dq then
            '(key, rest1) ← string_body rest;
            match skip_ws rest1 with
            | String ":" rest2 =>
                '(x, rest3) ← value fuel rest2;
                match skip_ws rest3 with
                | String "," rest4 => members fuel ((key, x) :: acc) rest4
                | String "}" rest4 => Some (JObject ((key, x) :: acc), rest4)
                | _ => None
                end
            | _ => None
            end
          else None
      | EmptyString => None
      end
  end
with elements (fuel : nat) (acc : list JSON) (s : string)
    : option (JSON * string) :=
  match fuel with
  | O => None
  | S fuel =>
      '(x, rest1) ← value fuel s;
      match skip_ws rest1 with
      | String "," rest2 => elements fuel (acc ++ [x]) rest2
      | String "]" rest2 => Some (JArray (acc ++ [x]), rest2)
      | _ => None
      end
  end.

Definition parse (s : string) : option JSON :=
  '(v, rest) ← value (2 * String.length s + 2) s;
  match skip_ws rest with
  | EmptyString => Some v
  | _ => None
  end.

End RefJSON.

(** * Vocabulary of the properties *)

(** ** Frames: what an invocation leaves untouched *)

(** The persisted state proper: the key-value store and the two tables. *)
Definition persisted (w : World) :=
  (storage w, questions w, next_question_id w, diary_entries w,
   next_entry_id w).

(** [quiet w w']: going from [w] to [w'] wrote nothing and sent nothing to
    the remote store. *)
Definition quiet (w w' : World) : Prop :=
  persisted w' = persisted w /\
  requests w' = requests w /\
  writes (journal w') = writes (journal w).

(** ** Permission and preconditions *)

(** The situations in which the permission cannot be confirmed: another
    platform, no usable native module, or a query that throws. *)
Definition access_unknown (env : Env) : Prop :=
  Platform_OS env <> "android" \/
  _native env = None \/
  isUsageStatsAvailable env = false \/
  (exists n, _native env = Some n /\ isUsageAccessGranted n = Some Rejects).

Inductive Precondition :=
| OnAndroid
| StoreConfigured
| CollectorAvailable
| AccessGranted.

(** The permission query resolves to [true]. *)
Definition access_granted (env : Env) : bool :=
  match _native env with
  | Some {| isUsageAccessGranted := Some (Resolves true) |} => true
  | _ => false
  end.

Definition holds (env : Env) (p : Precondition) : bool :=
  match p with
  | OnAndroid => is_android env
  | StoreConfigured => isSupabaseConfigured env
  | CollectorAvailable => isUsageStatsAvailable env
  | AccessGranted => access_granted env
  end.

(** The first precondition that fails, in the order in which the
    specification lists them. *)
Definition first_failure (env : Env) : option Precondition :=
  List.find (fun p => negb (holds env p))
    [OnAndroid; StoreConfigured; CollectorAvailable; AccessGranted].

(** What an invocation that stops at precondition [p] leaves in the
    journal (most recent first). *)
Definition trail (p : Precondition) : list Event :=
  match p with
  | OnAndroid => []
  | StoreConfigured => [EvLog LogSupabaseNotConfigured]
  | CollectorAvailable => [EvLog LogNativeModuleNotAvailable]
  | AccessGranted =>
      [EvLog LogUsageAccessNotGranted; EvNativeCall "isUsageAccessGranted"]
  end.

Definition replay (evs : list Event) (w : World) : World :=
  foldr record w evs.

(** The preconditions listed before [p]. *)
Definition earlier (p : Precondition) : list Precondition :=
  match p with
  | OnAndroid => []
  | StoreConfigured => [OnAndroid]
  | CollectorAvailable => [OnAndroid; StoreConfigured]
  | AccessGranted => [OnAndroid; StoreConfigured; CollectorAvailable]
  end.

(** ** The due check *)

(** The value [getDailyTargetTime] reads from a stored one. *)
Definition target_of (stored : option string) : string :=
  match stored with
  | Some s =>
      if JS.truthy_string s && regex_test HHMM_REGEX s then s
      else DEFAULT_DAILY_TIME_HHMM
  | None => DEFAULT_DAILY_TIME_HHMM
  end.

(** The decision of [isSubmissionDue], given the stored mark. *)
Definition due_at (now : Date) (target : string) (last : option string)
    : bool :=
  negb (bool_decide (last = Some (toISODate now))) &&
  negb (JS.lt (Some (toMinutesSinceMidnight now)) (hhmmToMinutes target)).

(** The minutes since midnight that a time [HH:mm] denotes. *)
Definition target_minutes (hhmm : string) : Z :=
  match hhmm with
  | String a (String b (String _ (String c (String d _)))) =>
      (10 * JS.digit_value a + JS.digit_value b) * 60
      + (10 * JS.digit_value c + JS.digit_value d)
  | _ => 0
  end.

(** The due check of [runIfDueNow]: read the target, then decide. *)
Definition due_check (now : Date) : M bool :=
  target <- getDailyTargetTime ;;
  isSubmissionDue now target.

Definition same_local_day (d1 d2 : Date) : Prop :=
  getFullYear d1 = getFullYear d2 /\
  getMonth d1 = getMonth d2 /\
  getDate d1 = getDate d2.

(** The Usage Collector call raises, whenever it is made. *)
Definition collector_raises (env : Env) : Prop :=
  forall cfg w, exists e w', getTodayUsageSummary env cfg w = (Throw e, w').

(** ** Invocations *)

Section Vocabulary.

Variable JSON_parse : string -> option JSON.
Variable JSON_stringify : JSON -> string.

Local Abbreviation run := (runIfDueNow JSON_parse JSON_stringify).
Local Abbreviation collect := (collectAndSubmit JSON_parse JSON_stringify).

(** The submission proper, once the gate is open and the day is due. *)
Definition submit (env : Env) (target : string) : M bool :=
  collect env {| at_ := Some (new_Date env); targetHHmm := Some target;
                 enforce := Some false |} ;;
  markSubmittedForToday (new_Date env) ;;
  ret true.

(** The invocations of a list of triggers, one after the other. *)
Fixpoint run_each (envs : list Env) (w : World)
    : list (Outcome bool) * World :=
  match envs with
  | [] => ([], w)
  | env :: rest =>
      let (r, w1) := run env w in
      let (rs, w2) := run_each rest w1 in
      (r :: rs, w2)
  end.

End Vocabulary.

(** ** The auto-question registry *)

Inductive Slot := SlotTotal | SlotSocial | SlotMusic | SlotLastApp.

Definition slot_text (s : Slot) : string :=
  match s with
  | SlotTotal => Q_TEXT_TOTAL
  | SlotSocial => Q_TEXT_SOCIAL
  | SlotMusic => Q_TEXT_MUSIC
  | SlotLastApp => Q_TEXT_LAST_APP
  end.

Definition slot_id (s : Slot) (q : UsageQuestionIds.t) : Z :=
  match s with
  | SlotTotal => UsageQuestionIds.totalMinutes q
  | SlotSocial => UsageQuestionIds.socialMinutes q
  | SlotMusic => UsageQuestionIds.musicMinutes q
  | SlotLastApp => UsageQuestionIds.lastApp q
  end.

Definition has_text (t : string) (r : QuestionRow) : bool :=
  String.eqb (q_question r) t.

(** The question the text lookup of [ensureUsageQuestions] finds among
    the fetched rows: the last one with that text. *)
Definition found (fetched : list QuestionRow) (t : string)
    : option QuestionRow :=
  last (List.filter (has_text t) fetched).

(** [row] is what the resolution creates for text [t] when the fetched
    rows hold no question with that text. *)
Definition created_for (fetched : list QuestionRow) (t : string)
    (row : QuestionRow) : Prop :=
  q_question row = t /\
  found fetched t = None /\
  q_order row = Some (Z.of_nat (length fetched) + 1) /\
  q_active row = Some true.

(** The rows [news] one call of the closure [ensure] for text [t] adds,
    and its result [r]. *)
Definition ensured (fetched : list QuestionRow) (t : string)
    (news : list QuestionRow) (r : Outcome Z) : Prop :=
  match found fetched t with
  | Some row => news = [] /\ r = Ok (q_id row)
  | None =>
      (news = [] /\ exists e, r = Throw e) \/
      (exists row, news = [row] /\ created_for fetched t row /\
                   r = Ok (q_id row))
  end.

(** At most one row, created for [t]. *)
Definition at_most_one_for (fetched : list QuestionRow) (t : string)
    (news : list QuestionRow) : Prop :=
  news = [] \/ exists row, news = [row] /\ created_for fetched t row.

(** The identifier a successful call returns. *)
Definition resolved_to (fetched : list QuestionRow) (t : string)
    (news : list QuestionRow) (i : Z) : Prop :=
  match found fetched t with
  | Some row => news = [] /\ i = q_id row
  | None => exists row, news = [row] /\ created_for fetched t row /\ q_id row = i
  end.

Definition news_of (n1 n2 n3 n4 : list QuestionRow) (s : Slot)
    : list QuestionRow :=
  match s with
  | SlotTotal => n1
  | SlotSocial => n2
  | SlotMusic => n3
  | SlotLastApp => n4
  end.

(** The rows a resolution adds, slot by slot. *)
Definition all_news (news : Slot -> list QuestionRow) : list QuestionRow :=
  news SlotTotal ++ news SlotSocial ++ news SlotMusic ++ news SlotLastApp.

Definition rows_sorted : list QuestionRow -> Prop :=
  StronglySorted (fun a b => row_le a b = true).

(** ** Concrete worlds *)

Module Sample.

Definition summary : UsageSummary :=
  {| totalScreenTimeMs := 7260000;
     socialMs := 1800000;
     musicMs := 0;
     lastApp := Some {| packageName := "com.example";
                        label := Some "Example";
                        lastUsedAt := 1738353600000 |};
     generatedAt := 1738357200000 |}.

Definition usage_module : NativeModule :=
  {| isUsageAccessGranted := Some (Resolves true);
     getTodayUsageSummary_native := Some (fun _ => Resolves summary) |}.

(** A module whose summary call rejects. *)
Definition failing_module : NativeModule :=
  {| isUsageAccessGranted := Some (Resolves true);
     getTodayUsageSummary_native := Some (fun _ => Rejects) |}.

Definition clock (h m : nat) : Date :=
  {| getFullYear := 2025; getMonth := 0; getDate := 31;
     getHours := h; getMinutes := m |}.

Definition device (os : string) (native : option NativeModule)
    (h m : nat) : Env :=
  {| Platform_OS := os;
     EXPO_PUBLIC_SUPABASE_URL := Some "https://diary.supabase.co";
     EXPO_PUBLIC_SUPABASE_ANON_KEY := Some "anon-key";
     _native := native;
     new_Date := clock h m;
     request_fails := fun _ => false |}.

Definition phone : nat -> nat -> Env :=
  device "android" (Some usage_module).

Definition empty_world : World :=
  {| storage := ∅; questions := []; next_question_id := 1;
     diary_entries := []; next_entry_id := 1; requests := 0;
     journal := [] |}.

(** A fresh installation whose user chose 21:00. *)
Definition installed : World :=
  with_storage (insert STORAGE_DAILY_TARGET_HHMM "21:00") empty_world.

Definition run := runIfDueNow RefJSON.parse RefJSON.stringify.

Definition resolve := ensureUsageQuestions RefJSON.parse RefJSON.stringify.

End Sample.

Module Witness.

Import Sample.

Definition later_triggers : list Env :=
  [phone 21 15; phone 23 59; device "android" None 22 0;
   device "ios" None 22 30].

Definition submitted : World := snd (run (phone 21 0) installed).

Definition run_each := run_each RefJSON.parse RefJSON.stringify.

Definition mood : QuestionRow :=
  {| q_id := 1; q_group_id := None; q_question := "Wie war dein Tag?";
     q_answer_type := AT_scale; q_min := Some 1; q_unit := None;
     q_order := Some 1; q_active := Some true;
     q_time_of_day := "evening"; q_ref_day := "today" |}.


Definition auto_row (i : Z) (text : string) (act : bool) : QuestionRow :=
  {| q_id := i; q_group_id := None; q_question := text;
     q_answer_type := AT_number; q_min := Some 0; q_unit := Some "Min";
     q_order := Some i; q_active := Some act;
     q_time_of_day := "evening"; q_ref_day := "today" |}.

Definition with_questions (rows : list QuestionRow) (next : Z) (w : World)
    : World :=
  {| storage := storage w; questions := rows; next_question_id := next;
     diary_entries := diary_entries w; next_entry_id := next_entry_id w;
     requests := requests w; journal := journal w |}.

(** The total-time question exists already; no cache. *)
Definition one_registered : World :=
  with_questions [auto_row 1 Q_TEXT_TOTAL true] 2 installed.

(** One user question, at position 1. *)
Definition one_question : World := with_questions [mood] 2 installed.

Definition entry_row (i qid : Z) (d : string) (v : Z) : EntryRow :=
  {| e_id := i; e_question_id := qid; e_date := d; e_time := "21:00";
     e_value := VNumber v; e_for_day := today |}.

(** Two entries for question 1 on the day, one for question 2. *)
Definition answered : World :=
  with_entries
    [entry_row 1 1 "2025-01-31" 90; entry_row 2 2 "2025-01-31" 5;
     entry_row 3 1 "2025-01-31" 95] 4 installed.

Definition new_entry : DiaryEntry.t :=
  {| DiaryEntry.id := 0; DiaryEntry.questionID := 1;
     DiaryEntry.date := "2025-01-31"; DiaryEntry.time := "21:00";
     DiaryEntry.value := VNumber 121; DiaryEntry.forDay := None |}.

End Witness.

(** * Further operations of the three modules *)

(** ** Remaining entry points of the scheduler (usageScheduler.ts) *)

Inductive BackgroundFetchResult := NewData | NoData | Failed.

(** [console.log] outside the gate: it leaves the world as it is (the
    journal keeps the log lines of [runIfDueNow] and [collectAndSubmit]). *)
Definition console_log : M unit := ret tt.

(** [AsyncStorage.multiRemove(keys)].  A removal shows in the store; the
    journal keeps sets and requests. *)
Definition multiRemove (keys : list string) : M unit :=
  fun w => (Ok tt, with_storage (fun m => foldr delete m keys) w).

Definition __debugResetState : M unit :=
  multiRemove [STORAGE_QIDS; STORAGE_LAST_SUBMITTED_DATE].

(** [selected || hhmmToDate(dailyTime)] in the change handler of the time
    picker: the picked date, or the date the picker shows ([shown], the
    value of [hhmmToDate(dailyTime)]) when none is passed.  A [Date] object
    is truthy. *)
Definition picked (shown : Date) (selected : option Date) : Date :=
  default shown selected.

(** The change handler of the time picker of the settings screen
    (SettingsScreen.tsx):
    [const d = selected || hhmmToDate(dailyTime);
     const next = `${hh}:${mm}`; setDailyTargetTime(next).catch(() => {})]
    with [hh] and [mm] the padded hours and minutes of [d].  The two
    updates of the component's own state (the displayed time, the
    visibility of the picker) are outside the world of the services. *)
Definition onChange (shown : Date) (selected : option Date) : M unit :=
  let d := picked shown selected in
  let next := toHHmm d in
  try_catch (setDailyTargetTime next) (fun _ => ret tt).

Section Triggers.

Variable JSON_parse : string -> option JSON.
Variable JSON_stringify : JSON -> string.

(** The function [defineTaskOnce] registers as the background task. *)
Definition task (env : Env) : M BackgroundFetchResult :=
  try_catch
    (ran <- runIfDueNow JSON_parse JSON_stringify env ;;
     ret (if ran : bool then NewData else NoData))
    (fun e => console_log ;; ret Failed).

(** The tasks of a list of background-fetch ticks, one after the other. *)
Fixpoint task_each (envs : list Env) (w : World)
    : list (Outcome BackgroundFetchResult) * World :=
  match envs with
  | [] => ([], w)
  | env :: rest =>
      let (r, w1) := task env w in
      let (rs, w2) := task_each rest w1 in
      (r :: rs, w2)
  end.

End Triggers.

(** ** Remaining operations of the remote data store (supabase.ts) *)

(** One request whose journal lines are given one by one (a bulk insert
    carries several rows; a read of the entries table leaves none). *)
Definition request_as {A} (env : Env) (lines : list RemoteRequest)
    (ctx : string) (effect : World -> A * World) : M A :=
  fun w =>
    let w1 :=
      count_request (foldr (fun r => record (EvRequest r)) w lines) in
    if request_fails env (requests w) then (Throw (StoreError ctx), w1)
    else let (a, w2) := effect w1 in (Ok a, w2).

Definition insert_line (entry : DiaryEntry.t) : RemoteRequest :=
  InsertEntry (DiaryEntry.questionID entry) (DiaryEntry.date entry)
    (for_day_of entry) (DiaryEntry.value entry).

Definition supaInsertDiaryEntry (env : Env) (entry : DiaryEntry.t) : M unit :=
  getSupabaseClient env ;;
  request env (insert_line entry) "diary_entries insert"
    (fun w =>
       (tt, with_entries
              (diary_entries w ++ [toDiaryEntryInsert (next_entry_id w) entry])
              (next_entry_id w + 1) w)).

(** The rows of a payload, numbered from [next] on by the identity
    column. *)
Fixpoint insert_rows (next : Z) (entries : list DiaryEntry.t)
    : list EntryRow :=
  match entries with
  | [] => []
  | entry :: rest =>
      toDiaryEntryInsert next entry :: insert_rows (next + 1) rest
  end.

Definition supaInsertDiaryEntriesBulk (env : Env)
    (entries : list DiaryEntry.t) : M unit :=
  match entries with
  | [] => ret tt
  | _ =>
      getSupabaseClient env ;;
      request_as env (insert_line <$> entries) "diary_entries bulk insert"
        (fun w =>
           (tt, with_entries
                  (diary_entries w ++ insert_rows (next_entry_id w) entries)
                  (next_entry_id w + Z.of_nat (length entries)) w))
  end.


(** ** Vocabulary of the further properties *)

(** The ranges of the local-time fields of a JavaScript [Date]. *)
Definition valid_date (d : Date) : Prop :=
  (getMonth d < 12)%nat /\ (1 <= getDate d <= 31)%nat /\
  (getHours d < 24)%nat /\ (getMinutes d < 60)%nat.

(** [padStart(2, "0")] of a number below 100 gives two digits that read
    back as the number. *)
Definition two_digits (n : nat) : bool :=
  match JS.padStart0 2 (pretty n) with
  | String a (String b EmptyString) =>
      JS.is_digit a && JS.is_digit b &&
      (10 * JS.digit_value a + JS.digit_value b =? Z.of_nat n)
  | _ => false
  end.

(** [m] relates every world to the world it leaves by [R]. *)
Definition keeps {A} (R : World -> World -> Prop) (m : M A) : Prop :=
  forall w r w', m w = (r, w') -> R w w'.

(** Only the keys [ks] of the local store may differ. *)
Definition only_keys (ks : list string) (w w' : World) : Prop :=
  forall k, k ∉ ks -> storage w' !! k = storage w !! k.

(** The remote tables are the same. *)
Definition same_tables (w w' : World) : Prop :=
  questions w' = questions w /\ next_question_id w' = next_question_id w /\
  diary_entries w' = diary_entries w /\ next_entry_id w' = next_entry_id w.

(** The property of the cached object that holds the identifier of a
    slot. *)
Definition slot_key (s : Slot) : string :=
  match s with
  | SlotTotal => "totalMinutes"
  | SlotSocial => "socialMinutes"
  | SlotMusic => "musicMinutes"
  | SlotLastApp => "lastApp"
  end.

(** The value [collectAndSubmit] writes for a slot. *)
Definition slot_value (summary : UsageSummary) (s : Slot) : EntryValue :=
  match s with
  | SlotTotal => VNumber (msToMinutes (totalScreenTimeMs summary))
  | SlotSocial => VNumber (msToMinutes (socialMs summary))
  | SlotMusic => VNumber (msToMinutes (musicMs summary))
  | SlotLastApp => VString (lastAppLabel summary)
  end.

(** Date, time and value of the entries held for a question on a day, as
    answers for that day. *)
Definition answers (qid : Z) (day : string) (w : World)
    : list (string * string * EntryValue) :=
  (fun r => (e_date r, e_time r, e_value r))
    <$> List.filter (same_slot qid day today) (diary_entries w).

(** ** The permission check of the settings screen (usageScheduler.ts) *)

Definition ensureUsagePermissionOnLaunch (env : Env) : M bool :=
  if negb (is_android env) then ret false else hasUsageAccess env.

(** The preconditions of the gate that depend on the device alone. *)
Definition device_ready (env : Env) : bool :=
  holds env OnAndroid && holds env CollectorAvailable
  && holds env AccessGranted.

(** ** Concrete worlds of the further properties *)

Module Scene.

Import Sample.

Definition tick := task RefJSON.parse RefJSON.stringify.

Definition tick_each := task_each RefJSON.parse RefJSON.stringify.

Definition collect := collectAndSubmit RefJSON.parse RefJSON.stringify.

(** The same phone on the morning of the next day, 1 February, 08:30. *)
Definition next_morning : Env :=
  {| Platform_OS := "android";
     EXPO_PUBLIC_SUPABASE_URL := Some "https://diary.supabase.co";
     EXPO_PUBLIC_SUPABASE_ANON_KEY := Some "anon-key";
     _native := Some usage_module;
     new_Date := {| getFullYear := 2025; getMonth := 1; getDate := 1;
                    getHours := 8; getMinutes := 30 |};
     request_fails := fun _ => false |}.

(** A build without the variables of the store, and no network. *)
Definition unconfigured : Env :=
  {| Platform_OS := "android";
     EXPO_PUBLIC_SUPABASE_URL := None;
     EXPO_PUBLIC_SUPABASE_ANON_KEY := Some "anon-key";
     _native := Some usage_module;
     new_Date := clock 21 0;
     request_fails := fun _ => true |}.

(** A cache written by a version that knew three slots only. *)
Definition three_slots : JSON :=
  JObject [("totalMinutes", JNumber 1); ("socialMinutes", JNumber 2);
           ("musicMinutes", JNumber 3)].

Definition partial_cache : World :=
  with_storage (insert STORAGE_QIDS (RefJSON.stringify three_slots))
    (Witness.with_questions
       [Witness.auto_row 1 Q_TEXT_TOTAL true;
        Witness.auto_row 2 Q_TEXT_SOCIAL true;
        Witness.auto_row 3 Q_TEXT_MUSIC true] 4 installed).

(** A question the user parks on creation. *)
Definition parked : Question.t :=
  {| Question.id := 0; Question.groupId := None;
     Question.question := "Kopfschmerzen?";
     Question.answerType := AT_scale; Question.min := Some 1;
     Question.unit := None; Question.order := None;
     Question.active := Some false;
     Question.timeOfDay := "evening"; Question.refDay := "today" |}.

Definition two_entries : list DiaryEntry.t :=
  [Witness.new_entry;
   {| DiaryEntry.id := 0; DiaryEntry.questionID := 2;
      DiaryEntry.date := "2025-01-30"; DiaryEntry.time := "07:45";
      DiaryEntry.value := VNumber 12; DiaryEntry.forDay := Some yesterday |}].

Definition manual : CollectOptions :=
  {| at_ := None; targetHHmm := None; enforce := Some true |}.

End Scene.

(** * Properties *)

(** ** Frames *)

Lemma quiet_refl w : quiet w w.
Proof. by unfold quiet. Qed.

Lemma quiet_trans w1 w2 w3 : quiet w1 w2 -> quiet w2 w3 -> quiet w1 w3.
Proof.
  unfold quiet. intros (-> & -> & ->) (-> & -> & ->). done.
Qed.

Lemma quiet_record e w : is_write e = false -> quiet w (record e w).
Proof.
  intros He. unfold quiet, persisted, writes. simpl. by rewrite He.
Qed.

Lemma quiet_replay evs w : writes evs = [] -> quiet w (replay evs w).
Proof.
  induction evs as [| e evs IH]; simpl; intros Hw; [apply quiet_refl |].
  unfold writes in Hw. simpl in Hw.
  destruct (is_write e) eqn:He; [done |].
  eapply quiet_trans; [by apply IH | by apply quiet_record].
Qed.

Lemma trail_quiet p w : quiet w (replay (trail p) w).
Proof. apply quiet_replay. by destruct p. Qed.

(** ** Millisecond-to-minute conversion *)

Lemma Math_round_div (ms : Z) :
  JS.Math_round (inject_Z ms / 60000)%Q = (ms + 30000) / 60000.
Proof.
  unfold JS.Math_round, Qfloor, Qdiv, Qmult, Qplus, Qinv, inject_Z. simpl.
  change (Z.pos (1 * 60000 * 2)) with (60000 * 2).
  replace (ms * 1 * 2 + 1 * Z.pos (1 * 60000)) with ((ms + 30000) * 2) by lia.
  by rewrite Z.div_mul_cancel_r.
Qed.

Lemma msToMinutes_closed_form ms :
  msToMinutes ms = Z.max 0 ((ms + 30000) / 60000).
Proof. unfold msToMinutes. by rewrite Math_round_div. Qed.

(** C7: the conversion rounds to the nearest whole minute and floors at
    zero; the result is never negative.  The four sample points of the
    specification are included. *)
Theorem msToMinutes_rounds_and_floors :
  msToMinutes 0 = 0 /\ msToMinutes 59999 = 1 /\
  msToMinutes (-1) = 0 /\ msToMinutes 90000 = 2 /\
  forall ms : Z,
    0 <= msToMinutes ms /\
    ((ms < 0 /\ msToMinutes ms = 0) \/
     -30000 <= ms - 60000 * msToMinutes ms < 30000).
Proof.
  repeat split; try reflexivity.
  - rewrite msToMinutes_closed_form. lia.
  - rewrite msToMinutes_closed_form.
    destruct (Z_lt_le_dec ms 0) as [Hneg | Hpos].
    + left. split; [done |].
      assert ((ms + 30000) / 60000 <= 0); [| lia].
      apply Z.lt_succ_r, Z.div_lt_upper_bound; lia.
    + right.
      pose proof (Z.div_mod (ms + 30000) 60000 ltac:(lia)) as Hdiv.
      pose proof (Z.mod_pos_bound (ms + 30000) 60000 ltac:(lia)) as Hmod.
      assert (0 <= (ms + 30000) / 60000) by (apply Z.div_pos; lia).
      lia.
Qed.

(** ** Daily target time *)

Lemma HHMM_REGEX_shape (s : string) :
  regex_test HHMM_REGEX s = true <->
  exists a b c d,
    s = String a (String b (String ":" (String c (String d "")))) /\
    JS.is_digit a = true /\ JS.is_digit b = true /\
    JS.is_digit c = true /\ JS.is_digit d = true.
Proof.
  split.
  - destruct s as [| a [| b [| k [| c [| d [| ? ?]]]]]]; simpl; try done;
      rewrite ?andb_false_r; try done.
    rewrite !andb_true_r, !andb_true_iff, Ascii.eqb_eq.
    intros (Ha & Hb & -> & Hc & Hd). by exists a, b, c, d.
  - intros (a & b & c & d & -> & Ha & Hb & Hc & Hd). simpl.
    by rewrite Ha, Hb, Hc, Hd.
Qed.

Lemma HHMM_REGEX_truthy s :
  regex_test HHMM_REGEX s = true -> JS.truthy_string s = true.
Proof. by destruct s. Qed.

Lemma getDailyTargetTime_stored hhmm w :
  regex_test HHMM_REGEX hhmm = true ->
  storage w !! STORAGE_DAILY_TARGET_HHMM = Some hhmm ->
  getDailyTargetTime w = (Ok hhmm, w).
Proof.
  intros Hre Hget. unfold getDailyTargetTime, bind, AsyncStorage.getItem, ret.
  by rewrite Hget, Hre, (HHMM_REGEX_truthy _ Hre).
Qed.

(** C8: [setDailyTargetTime] stores exactly the strings that match
    [/^\d{2}:\d{2}$/], and a stored value is read back verbatim by
    [getDailyTargetTime]; every other string is rejected with
    [InvalidTimeFormat] and nothing is stored.  "9:00" is rejected and
    "23:59" round-trips. *)
Theorem setDailyTargetTime_validates :
  (forall (hhmm : string) (w : World),
     if regex_test HHMM_REGEX hhmm
     then exists w',
            setDailyTargetTime hhmm w = (Ok tt, w') /\
            storage w' !! STORAGE_DAILY_TARGET_HHMM = Some hhmm /\
            getDailyTargetTime w' = (Ok hhmm, w')
     else setDailyTargetTime hhmm w = (Throw InvalidTimeFormat, w)) /\
  (forall w, setDailyTargetTime "9:00" w = (Throw InvalidTimeFormat, w)) /\
  (forall w, exists w',
     setDailyTargetTime "23:59" w = (Ok tt, w') /\
     getDailyTargetTime w' = (Ok "23:59", w')).
Proof.
  assert (Hgen : forall hhmm w,
     if regex_test HHMM_REGEX hhmm
     then exists w',
            setDailyTargetTime hhmm w = (Ok tt, w') /\
            storage w' !! STORAGE_DAILY_TARGET_HHMM = Some hhmm /\
            getDailyTargetTime w' = (Ok hhmm, w')
     else setDailyTargetTime hhmm w = (Throw InvalidTimeFormat, w)).
  { intros hhmm w. unfold setDailyTargetTime.
    destruct (regex_test HHMM_REGEX hhmm) eqn:Hre; simpl; [| done].
    eexists. split; [reflexivity |].
    assert (Hget : storage
              (record (EvStorageSet STORAGE_DAILY_TARGET_HHMM hhmm)
                 (with_storage (insert STORAGE_DAILY_TARGET_HHMM hhmm) w))
              !! STORAGE_DAILY_TARGET_HHMM = Some hhmm)
      by (simpl; apply lookup_insert_eq).
    split; [exact Hget |]. by apply getDailyTargetTime_stored. }
  split; [exact Hgen |]. split.
  - intros w. exact (Hgen "9:00" w).
  - intros w. destruct (Hgen "23:59" w) as (w' & Hset & _ & Hget).
    by exists w'.
Qed.

(** ** Permission query *)

Lemma is_android_false env :
  is_android env = false <-> Platform_OS env <> "android".
Proof. unfold is_android. apply String.eqb_neq. Qed.

Lemma isUsageStatsAvailable_true env :
  isUsageStatsAvailable env = true ->
  is_android env = true /\
  exists n s f, _native env = Some n /\
    isUsageAccessGranted n = Some s /\
    getTodayUsageSummary_native n = Some f.
Proof.
  unfold isUsageStatsAvailable. intros [Ha Hn]%andb_true_iff.
  split; [done |]. destruct (_native env) as [n |]; [| done].
  apply andb_true_iff in Hn as [[s Hs]%bool_decide_eq_true
                                 [f Hf]%bool_decide_eq_true].
  by exists n, s, f.
Qed.

(** What [hasUsageAccess] answers, given what the permission query
    settles to. *)
Lemma hasUsageAccess_run env w :
  exists b,
    hasUsageAccess env w
    = (Ok b,
       if is_android env && isUsageStatsAvailable env
       then record (EvNativeCall "isUsageAccessGranted") w else w) /\
    (b = true <->
     isUsageStatsAvailable env = true /\
     exists n, _native env = Some n /\
               isUsageAccessGranted n = Some (Resolves true)).
Proof.
  unfold hasUsageAccess.
  destruct (is_android env) eqn:Handroid; simpl.
  2: { exists false. split; [done |]. split; [done |].
       intros [[Ha _]%isUsageStatsAvailable_true _]. congruence. }
  destruct (isUsageStatsAvailable env) eqn:Havail; simpl.
  2: { exists false. split; [done |]. split; [done |]. by intros [? _]. }
  destruct (isUsageStatsAvailable_true _ Havail)
    as (_ & n & s & f & Hn & Hs & Hf).
  unfold try_catch, call_isUsageAccessGranted, bind, emit. rewrite Hn.
  destruct n as [granted summary]. simpl in Hs, Hf. subst granted summary.
  destruct s as [b |]; simpl.
  - exists b. split; [done |]. split.
    + intros ->. split; [done |]. by eexists.
    + intros (_ & n' & [= <-] & Hq). simpl in Hq. congruence.
  - exists false. split; [done |]. split; [done |].
    intros (_ & n' & [= <-] & Hq). simpl in Hq. congruence.
Qed.

(** C10: [hasUsageAccess] always returns a boolean and never throws; it
    writes nothing; and it answers [false] on every platform other than
    Android, when the native module is missing or incomplete, and when the
    permission query itself throws. *)
Theorem hasUsageAccess_total (env : Env) (w : World) :
  exists b w',
    hasUsageAccess env w = (Ok b, w') /\
    quiet w w' /\
    (access_unknown env -> b = false).
Proof.
  destruct (hasUsageAccess_run env w) as (b & Hrun & Htrue).
  eexists b, _. split; [exact Hrun |]. split.
  - destruct (is_android env && isUsageStatsAvailable env);
      [by apply quiet_record | apply quiet_refl].
  - intros Hunknown. destruct b; [| done]. exfalso.
    destruct Htrue as [Htrue _].
    destruct (Htrue eq_refl) as (Havail & n & Hn & Hq).
    destruct (isUsageStatsAvailable_true _ Havail) as (Ha & _).
    destruct Hunknown as [Hos | [Hnone | [Hna | (n' & Hn' & Hrej)]]].
    + by apply is_android_false in Hos; congruence.
    + congruence.
    + congruence.
    + congruence.
Qed.

(** ** The gate of [runIfDueNow] *)

Lemma getDailyTargetTime_run w :
  getDailyTargetTime w
  = (Ok (target_of (storage w !! STORAGE_DAILY_TARGET_HHMM)), w).
Proof. reflexivity. Qed.

Lemma isSubmissionDue_run now target w :
  isSubmissionDue now target w
  = (Ok (due_at now target (storage w !! STORAGE_LAST_SUBMITTED_DATE)), w).
Proof.
  unfold isSubmissionDue, due_at, bind, AsyncStorage.getItem.
  destruct (bool_decide _); [done |].
  by destruct (JS.lt _ _).
Qed.

Lemma first_failure_None env :
  first_failure env = None <->
  is_android env = true /\ isSupabaseConfigured env = true /\
  isUsageStatsAvailable env = true /\ access_granted env = true.
Proof.
  unfold first_failure. simpl.
  destruct (is_android env), (isSupabaseConfigured env),
    (isUsageStatsAvailable env), (access_granted env); simpl;
    split; try done; intros (? & ? & ? & ?); done.
Qed.

Lemma first_failure_Some env p :
  first_failure env = Some p -> holds env p = false.
Proof.
  unfold first_failure. intros [_ H]%find_some. by apply negb_true_iff.
Qed.

Lemma hasUsageAccess_when_available env w :
  is_android env = true -> isUsageStatsAvailable env = true ->
  hasUsageAccess env w
  = (Ok (access_granted env), record (EvNativeCall "isUsageAccessGranted") w).
Proof.
  intros Ha Hav. unfold hasUsageAccess. rewrite Ha, Hav. simpl.
  destruct (isUsageStatsAvailable_true _ Hav) as (_ & n & s & f & Hn & Hs & Hf).
  unfold try_catch, call_isUsageAccessGranted, bind, emit, access_granted.
  rewrite Hn. destruct n as [granted summary]. simpl in Hs, Hf. subst.
  by destruct s as [[|] |].
Qed.

Section Properties.

Variable JSON_parse : string -> option JSON.
Variable JSON_stringify : JSON -> string.

Local Abbreviation run := (runIfDueNow JSON_parse JSON_stringify).
Local Abbreviation collect := (collectAndSubmit JSON_parse JSON_stringify).
Local Abbreviation resolve := (ensureUsageQuestions JSON_parse JSON_stringify).
Local Abbreviation submit := (submit JSON_parse JSON_stringify).
Local Abbreviation run_each := (run_each JSON_parse JSON_stringify).

(** [runIfDueNow] by cases: it stops at the first failing precondition,
    or queries the permission, reads the target time and the mark, and
    submits when due. *)
Lemma runIfDueNow_cases env w :
  match first_failure env with
  | Some p => run env w = (Ok false, replay (trail p) w)
  | None =>
      let w1 := record (EvNativeCall "isUsageAccessGranted") w in
      let target := target_of (storage w !! STORAGE_DAILY_TARGET_HHMM) in
      run env w
      = if due_at (new_Date env) target
             (storage w !! STORAGE_LAST_SUBMITTED_DATE)
        then submit env target w1
        else (Ok false, w1)
  end.
Proof.
  unfold first_failure, runIfDueNow. simpl.
  destruct (is_android env) eqn:Ha; simpl; [| done].
  destruct (isSupabaseConfigured env) eqn:Hc; simpl; [| done].
  destruct (isUsageStatsAvailable env) eqn:Hav; simpl; [| done].
  destruct (access_granted env) eqn:Hg; simpl;
    unfold bind at 1; rewrite hasUsageAccess_when_available, Hg by done;
    simpl; [| done].
  unfold bind at 1. rewrite getDailyTargetTime_run.
  unfold bind at 1. rewrite isSubmissionDue_run.
  by destruct (due_at _ _ _).
Qed.

Lemma first_failure_earlier env p :
  first_failure env = Some p ->
  Forall (fun q => holds env q = true) (earlier p).
Proof.
  unfold first_failure. simpl.
  destruct (is_android env) eqn:Ha, (isSupabaseConfigured env) eqn:Hc,
    (isUsageStatsAvailable env) eqn:Hav, (access_granted env) eqn:Hg;
    simpl; intros [= <-]; simpl; repeat constructor; done.
Qed.

(** C6: when a precondition fails, [runIfDueNow] stops at the first one
    that fails in the order platform, store configuration, collector
    module, usage access: every earlier one holds, the journal shows the
    trail of that precondition only, no error is raised, the result is
    [false], and nothing is written or sent. *)
Theorem gate_short_circuits (env : Env) (w : World) :
  (exists p, holds env p = false) ->
  exists p,
    first_failure env = Some p /\
    holds env p = false /\
    Forall (fun q => holds env q = true) (earlier p) /\
    run env w = (Ok false, replay (trail p) w) /\
    quiet w (replay (trail p) w).
Proof.
  intros [q Hq].
  destruct (first_failure env) as [p |] eqn:Hff.
  - exists p. pose proof (runIfDueNow_cases env w) as Hrun.
    rewrite Hff in Hrun.
    auto using first_failure_Some, first_failure_earlier, trail_quiet.
  - apply first_failure_None in Hff as (? & ? & ? & ?).
    destruct q; simpl in Hq; congruence.
Qed.

(** ** Failure of the collector *)

Lemma getTodayUsageSummary_quiet env cfg w r w' :
  getTodayUsageSummary env cfg w = (r, w') -> quiet w w'.
Proof.
  unfold getTodayUsageSummary, guardAndroid, guardNative, bind.
  destruct (is_android env); simpl; [| intros [= <- <-]; apply quiet_refl].
  destruct (isUsageStatsAvailable env); simpl;
    [| intros [= <- <-]; apply quiet_refl].
  unfold call_getTodayUsageSummary, bind, emit.
  assert (Hq : quiet w (record (EvNativeCall "getTodayUsageSummary") w))
    by by apply quiet_record.
  destruct (_native env) as [[granted [f |]] |]; simpl;
    try (intros [= <- <-]; exact Hq).
  destruct (f _); simpl; intros [= <- <-]; exact Hq.
Qed.

Lemma collect_raises env opts w :
  collector_raises env ->
  exists e w', collect env opts w = (Throw e, w') /\ quiet w w'.
Proof.
  intros Hraise. unfold collectAndSubmit. unfold bind at 1.
  destruct (Hraise (Some (Some (social DefaultPackages),
                          Some (music DefaultPackages))) w)
    as (e & w' & Hsum).
  rewrite Hsum. exists e, w'. split; [done |].
  by eapply getTodayUsageSummary_quiet.
Qed.

(** C3: when the Usage Collector call raises, [collectAndSubmit] fails as
    a whole having written nothing (no diary entry, no question, no key of
    the local store), and [runIfDueNow] does not report a submission and
    leaves the SubmissionMark as it was. *)
Theorem collector_failure_is_atomic (env : Env) (opts : CollectOptions)
    (w : World) :
  collector_raises env ->
  (exists e w', collect env opts w = (Throw e, w') /\ quiet w w') /\
  (exists r w', run env w = (r, w') /\ r <> Ok true /\ quiet w w').
Proof.
  intros Hraise. split; [by apply collect_raises |].
  pose proof (runIfDueNow_cases env w) as Hrun.
  destruct (first_failure env) as [p |].
  - eexists _, _. split; [exact Hrun |]. split; [done |]. apply trail_quiet.
  - simpl in Hrun.
    assert (Hq : quiet w (record (EvNativeCall "isUsageAccessGranted") w))
      by by apply quiet_record.
    destruct (due_at _ _ _).
    + unfold submit in Hrun. unfold bind at 1 in Hrun.
      destruct (collect_raises env
                  {| at_ := Some (new_Date env);
                     targetHHmm :=
                       Some (target_of
                               (storage w !! STORAGE_DAILY_TARGET_HHMM));
                     enforce := Some false |}
                  (record (EvNativeCall "isUsageAccessGranted") w) Hraise)
        as (e & w' & Hc & Hq').
      rewrite Hc in Hrun.
      eexists _, _. split; [exact Hrun |]. split; [done |].
      by eapply quiet_trans.
    + eexists _, _. split; [exact Hrun |]. by split.
Qed.

(** ** Once per local day *)

Lemma same_local_day_ISO d1 d2 :
  same_local_day d1 d2 -> toISODate d1 = toISODate d2.
Proof. unfold toISODate. by intros (-> & -> & ->). Qed.

Lemma run_success_marks env w w1 :
  run env w = (Ok true, w1) ->
  storage w1 !! STORAGE_LAST_SUBMITTED_DATE
  = Some (toISODate (new_Date env)).
Proof.
  pose proof (runIfDueNow_cases env w) as Hrun.
  destruct (first_failure env) as [p |]; [by rewrite Hrun |].
  simpl in Hrun. rewrite Hrun. clear Hrun.
  destruct (due_at _ _ _); [| done].
  unfold submit, bind.
  destruct (collect _ _ _) as [[[] | e] w']; [| done].
  unfold markSubmittedForToday, AsyncStorage.setItem, ret.
  intros [= <-]. simpl. apply lookup_insert_eq.
Qed.

Lemma run_marked env w :
  storage w !! STORAGE_LAST_SUBMITTED_DATE
  = Some (toISODate (new_Date env)) ->
  exists w', run env w = (Ok false, w') /\ quiet w w'.
Proof.
  intros Hmark. pose proof (runIfDueNow_cases env w) as Hrun.
  destruct (first_failure env) as [p |].
  - eexists. split; [exact Hrun |]. apply trail_quiet.
  - simpl in Hrun. unfold due_at in Hrun.
    rewrite bool_decide_eq_true_2 in Hrun by done. simpl in Hrun.
    eexists. split; [exact Hrun |]. by apply quiet_record.
Qed.

Lemma run_each_marked later : forall w today,
  storage w !! STORAGE_LAST_SUBMITTED_DATE = Some today ->
  Forall (fun env' => toISODate (new_Date env') = today) later ->
  exists w',
    run_each later w = (replicate (length later) (Ok false), w') /\
    quiet w w'.
Proof.
  induction later as [| env' later IH]; intros w today Hmark Hday.
  - exists w. split; [done | apply quiet_refl].
  - apply Forall_cons in Hday as [Hday Hlater].
    destruct (run_marked env' w) as (w1 & Hrun & Hq1); [congruence |].
    destruct (IH w1 today) as (w2 & Hrest & Hq2); [| done |].
    { destruct Hq1 as (Hp & _). unfold persisted in Hp.
      injection Hp as -> _ _ _ _. done. }
    exists w2. simpl. rewrite Hrun, Hrest.
    split; [done | by eapply quiet_trans].
Qed.

(** C1: once an invocation of [runIfDueNow] has succeeded on a local
    calendar day, every later invocation on that day, whatever its
    environment, returns [false], performs no write (no diary entry, no
    question, no key of the local store), sends nothing to the remote
    store and leaves the persisted state as it is. *)
Theorem once_per_local_day (env : Env) (w w1 : World) (later : list Env) :
  run env w = (Ok true, w1) ->
  Forall (fun env' => same_local_day (new_Date env') (new_Date env)) later ->
  exists w2,
    run_each later w1 = (replicate (length later) (Ok false), w2) /\
    quiet w1 w2.
Proof.
  intros Hrun Hday.
  apply run_each_marked with (today := toISODate (new_Date env)).
  - by eapply run_success_marks.
  - eapply Forall_impl; [exact Hday |].
    intros env' Hsame. by apply same_local_day_ISO.
Qed.

End Properties.

(** ** The due check *)

Lemma digit_not_colon x : JS.is_digit x = true -> Ascii.eqb x ":" = false.
Proof.
  intros Hx. destruct (Ascii.eqb_spec x ":") as [-> |]; [| done].
  by vm_compute in Hx.
Qed.

Lemma hhmmToMinutes_HHMM s :
  regex_test HHMM_REGEX s = true ->
  hhmmToMinutes s = Some (target_minutes s).
Proof.
  intros (a & b & c & d & -> & Ha & Hb & Hc & Hd)%HHMM_REGEX_shape.
  unfold hhmmToMinutes. cbn [JS.split_on].
  rewrite (digit_not_colon a), (digit_not_colon b), (digit_not_colon c),
    (digit_not_colon d), Ascii.eqb_refl by done.
  cbn [lookup list_lookup JS.Number JS.digits_value].
  rewrite Ha, Hb, Hc, Hd. cbn [target_minutes]. f_equal; lia.
Qed.

Lemma target_of_HHMM stored : regex_test HHMM_REGEX (target_of stored) = true.
Proof.
  unfold target_of. destruct stored as [s |]; [| done].
  destruct (JS.truthy_string s && regex_test HHMM_REGEX s) eqn:Hs; [| done].
  by apply andb_true_iff in Hs as [_ ?].
Qed.

Lemma due_check_run now w :
  due_check now w
  = (Ok (bool_decide
           (storage w !! STORAGE_LAST_SUBMITTED_DATE <> Some (toISODate now) /\
            target_minutes (target_of (storage w !! STORAGE_DAILY_TARGET_HHMM))
            <= toMinutesSinceMidnight now)), w).
Proof.
  unfold due_check, bind.
  rewrite getDailyTargetTime_run, isSubmissionDue_run. f_equal. f_equal.
  unfold due_at. rewrite hhmmToMinutes_HHMM by apply target_of_HHMM.
  cbn [JS.lt].
  destruct (Z.ltb_spec (toMinutesSinceMidnight now)
              (target_minutes
                 (target_of (storage w !! STORAGE_DAILY_TARGET_HHMM))))
    as [Hlt | Hge]; cbn [negb]; rewrite ?andb_false_r, ?andb_true_r.
  - symmetry. apply bool_decide_eq_false_2. lia.
  - destruct (decide (storage w !! STORAGE_LAST_SUBMITTED_DATE
                      = Some (toISODate now))) as [He | Hne].
    + rewrite (bool_decide_eq_true_2 _ He). symmetry.
      apply bool_decide_eq_false_2. by intros [? _].
    + rewrite (bool_decide_eq_false_2 _ Hne). symmetry.
      by apply bool_decide_eq_true_2.
Qed.


(** ** Replace semantics of the set-entry operation *)

Lemma filter_negb_filter {A} (f : A -> bool) (l : list A) :
  List.filter f (List.filter (fun x => negb (f x)) l) = [].
Proof.
  induction l as [| x l IH]; simpl; [done |].
  destruct (f x) eqn:Hx; simpl; [done |]. by rewrite Hx.
Qed.




(** ** The auto-question registry *)

Lemma slot_text_inj s1 s2 : slot_text s1 = slot_text s2 -> s1 = s2.
Proof. by destruct s1, s2. Qed.

Lemma foldl_insert_lookup (pairs : list (string * Question.t)) :
  forall (m : gmap string Question.t) k,
    foldl (fun m kv => <[kv.1 := kv.2]> m) m pairs !! k
    = match last (List.filter (fun kv => String.eqb kv.1 k) pairs) with
      | Some kv => Some kv.2
      | None => m !! k
      end.
Proof.
  induction pairs as [| [k' v'] pairs IH]; intros m k; simpl; [done |].
  rewrite IH. destruct (String.eqb_spec k' k) as [-> | Hne]; simpl.
  - destruct (List.filter _ pairs) as [| kv rest]; simpl.
    + apply lookup_insert_eq.
    + destruct (last (kv :: rest)) eqn:Hlast; [done |].
      by apply last_None in Hlast.
  - destruct (last _); [done |]. by apply lookup_insert_ne.
Qed.

Lemma Map_of_lookup pairs k :
  Map_of pairs !! k
  = snd <$> last (List.filter (fun kv => String.eqb kv.1 k) pairs).
Proof.
  unfold Map_of. rewrite foldl_insert_lookup.
  by destruct (last _).
Qed.

Lemma filter_text_pairs (fetched : list QuestionRow) (t : string) :
  List.filter (fun kv : string * Question.t => String.eqb kv.1 t)
    ((fun q => (Question.question q, q)) <$> (toQuestion <$> fetched))
  = (fun r => (q_question r, toQuestion r))
      <$> List.filter (has_text t) fetched.
Proof.
  induction fetched as [| r rows IH]; [done |].
  rewrite !fmap_cons. cbn [List.filter fst]. rewrite IH.
  cbn [Question.question toQuestion]. unfold has_text.
  by destruct (String.eqb (q_question r) t).
Qed.

Lemma mapByText_lookup (fetched : list QuestionRow) (t : string) :
  Map_of ((fun q => (Question.question q, q)) <$> (toQuestion <$> fetched))
    !! t
  = toQuestion <$> found fetched t.
Proof.
  rewrite Map_of_lookup, filter_text_pairs, fmap_last. unfold found.
  by destruct (last _).
Qed.

Lemma found_Some fetched t r :
  found fetched t = Some r -> r ∈ fetched /\ q_question r = t.
Proof.
  unfold found. intros Hlast.
  assert (Hin : In r (List.filter (has_text t) fetched)).
  { apply last_Some in Hlast as [l' ->]. apply in_or_app. right. by left. }
  apply filter_In in Hin as [Hin Ht].
  split; [by apply list_elem_of_In | by apply String.eqb_eq].
Qed.

Lemma found_None fetched t r :
  found fetched t = None -> r ∈ fetched -> q_question r <> t.
Proof.
  unfold found. intros Hlast Hin Ht.
  assert (Hin' : In r (List.filter (has_text t) fetched)).
  { apply filter_In. split; [by apply list_elem_of_In |].
    by apply String.eqb_eq. }
  apply last_None in Hlast. rewrite Hlast in Hin'. done.
Qed.

Lemma insert_row_Permutation r l : insert_row r l ≡ₚ r :: l.
Proof.
  induction l as [| r' l IH]; simpl; [done |].
  destruct (row_le r r'); [done |].
  rewrite IH. apply Permutation_swap.
Qed.

Lemma order_rows_Permutation l : order_rows l ≡ₚ l.
Proof.
  induction l as [| r l IH]; simpl; [done |].
  by rewrite insert_row_Permutation, IH.
Qed.

Lemma select_questions_elem r w :
  r ∈ select_questions w <-> r ∈ questions w /\ active_or_null r = true.
Proof.
  unfold select_questions. rewrite order_rows_Permutation.
  rewrite !list_elem_of_In, filter_In. done.
Qed.

(** *** One resolution through the store *)

Lemma supaGetQuestions_run env w r w' :
  supaGetQuestions env w = (r, w') ->
  questions w' = questions w /\
  diary_entries w' = diary_entries w /\
  storage w' = storage w /\
  ((exists e, r = Throw e) \/ r = Ok (toQuestion <$> select_questions w)).
Proof.
  unfold supaGetQuestions, getSupabaseClient, request, bind.
  destruct (blank_env (EXPO_PUBLIC_SUPABASE_URL env)); simpl;
    [intros [= <- <-]; eauto 10 |].
  destruct (blank_env (EXPO_PUBLIC_SUPABASE_ANON_KEY env)); simpl;
    [intros [= <- <-]; eauto 10 |].
  destruct (request_fails env (requests w)); intros [= <- <-]; simpl; eauto 10.
Qed.

Lemma supaInsertQuestion_run env input w r w' :
  supaInsertQuestion env input w = (r, w') ->
  diary_entries w' = diary_entries w /\
  storage w' = storage w /\
  (((exists e, r = Throw e) /\ questions w' = questions w) \/
   (r = Ok (toQuestion (question_row (next_question_id w) input)) /\
    questions w'
    = (questions w ++ [question_row (next_question_id w) input])%list)).
Proof.
  unfold supaInsertQuestion, getSupabaseClient, request, bind.
  destruct (blank_env (EXPO_PUBLIC_SUPABASE_URL env)); simpl;
    [intros [= <- <-]; eauto 10 |].
  destruct (blank_env (EXPO_PUBLIC_SUPABASE_ANON_KEY env)); simpl;
    [intros [= <- <-]; eauto 10 |].
  destruct (request_fails env (requests w)); intros [= <- <-]; simpl; eauto 10.
Qed.

Lemma ensured_at_most_one fetched t news r :
  ensured fetched t news r -> at_most_one_for fetched t news.
Proof.
  unfold ensured, at_most_one_for. destruct (found fetched t).
  - intros [-> _]. by left.
  - intros [[-> _] | (row & -> & Hc & _)]; [by left | right; eauto].
Qed.

Lemma ensured_resolved fetched t news i :
  ensured fetched t news (Ok i) -> resolved_to fetched t news i.
Proof.
  unfold ensured, resolved_to. destruct (found fetched t).
  - intros [-> [= ->]]. done.
  - intros [[_ [e [=]]] | (row & -> & Hc & [= ->])]. eauto.
Qed.

Lemma ensured_thrown fetched t news e :
  ensured fetched t news (Throw e) -> news = [].
Proof.
  unfold ensured. destruct (found fetched t).
  - by intros [-> _].
  - by intros [[-> _] | (row & _ & _ & [=])].
Qed.

Lemma at_most_one_nil fetched t : at_most_one_for fetched t [].
Proof. by left. Qed.

Section Registry.

Variable JSON_parse : string -> option JSON.
Variable JSON_stringify : JSON -> string.

Local Abbreviation resolve :=
  (ensureUsageQuestions JSON_parse JSON_stringify).

(** What one call of the closure [ensure] does to the tables. *)
Lemma ensure_post env fetched t answerType unit w r w' :
  ensure env (toQuestion <$> fetched)
    (Map_of ((fun q => (Question.question q, q)) <$> (toQuestion <$> fetched)))
    t answerType unit w = (r, w') ->
  diary_entries w' = diary_entries w /\
  storage w' = storage w /\
  exists news,
    questions w' = (questions w ++ news)%list /\
    ensured fetched t news r.
Proof.
  unfold ensure, ensured. rewrite mapByText_lookup.
  destruct (found fetched t) as [row |] eqn:Hfound; simpl.
  - intros [= <- <-]. repeat split. exists []. by rewrite app_nil_r.
  - unfold bind. destruct (supaInsertQuestion _ _ _) as [[q | e] w1] eqn:Hins;
      intros [= <- <-];
      apply supaInsertQuestion_run in Hins
        as (He & Hs & [[[e' [=]] Hq] | [[=] Hq]]); subst;
      split; try done; split; try done.
    + eexists [_]. split; [exact Hq |]. right. eexists. split; [done |].
      split; [| done]. unfold created_for. simpl.
      rewrite length_fmap. done.
    + exists []. rewrite app_nil_r. split; [done |]. left. eauto.
Qed.

(** A resolution that does not find a valid cache: it adds at most one
    row per slot, only for texts the fetched rows do not hold, and on
    success every slot is resolved to the found or the created row. *)
Lemma resolve_store_path env w r w' :
  cached_qids JSON_parse (storage w !! STORAGE_QIDS) = None ->
  resolve env w = (r, w') ->
  diary_entries w' = diary_entries w /\
  exists news : Slot -> list QuestionRow,
    questions w' = (questions w ++ all_news news)%list /\
    (forall s, at_most_one_for (select_questions w) (slot_text s) (news s)) /\
    (forall qids, r = Ok qids ->
       forall s, resolved_to (select_questions w) (slot_text s) (news s)
                   (slot_id s qids)).
Proof.
  intros Hcache. unfold ensureUsageQuestions.
  unfold bind at 1. unfold AsyncStorage.getItem at 1. rewrite Hcache.
  unfold bind at 1.
  destruct (supaGetQuestions env w) as [[all | e] w0] eqn:Hget;
    apply supaGetQuestions_run in Hget as (Hq0 & Hd0 & Hs0 & Hr0).
  2: { intros [= <- <-]. split; [done |]. exists (news_of [] [] [] []).
       unfold all_news. simpl. rewrite app_nil_r.
       split; [done |]. split; [intros []; apply at_most_one_nil | done]. }
  destruct Hr0 as [[e [=]] | [= ->]].
  set (fetched := select_questions w).
  unfold bind at 1.
  destruct (ensure env _ _ Q_TEXT_TOTAL _ _ w0) as [[i1 | e1] w1] eqn:H1;
    apply ensure_post in H1 as (Hd1 & Hs1 & n1 & Hq1 & He1).
  2: { intros [= <- <-]. split; [congruence |]. exists (news_of n1 [] [] []).
       unfold all_news. simpl. rewrite app_nil_r.
       split; [congruence |].
       split; [intros []; simpl;
               eauto using ensured_at_most_one, at_most_one_nil | done]. }
  unfold bind at 1.
  destruct (ensure env _ _ Q_TEXT_SOCIAL _ _ w1) as [[i2 | e2] w2] eqn:H2;
    apply ensure_post in H2 as (Hd2 & Hs2 & n2 & Hq2 & He2).
  2: { intros [= <- <-]. split; [congruence |]. exists (news_of n1 n2 [] []).
       unfold all_news. simpl. rewrite app_nil_r.
       split; [rewrite Hq2, Hq1, Hq0; by rewrite <- !app_assoc |].
       split; [intros []; simpl;
               eauto using ensured_at_most_one, at_most_one_nil | done]. }
  unfold bind at 1.
  destruct (ensure env _ _ Q_TEXT_MUSIC _ _ w2) as [[i3 | e3] w3] eqn:H3;
    apply ensure_post in H3 as (Hd3 & Hs3 & n3 & Hq3 & He3).
  2: { intros [= <- <-]. split; [congruence |]. exists (news_of n1 n2 n3 []).
       unfold all_news. simpl. rewrite app_nil_r.
       split; [rewrite Hq3, Hq2, Hq1, Hq0; by rewrite <- !app_assoc |].
       split; [intros []; simpl;
               eauto using ensured_at_most_one, at_most_one_nil | done]. }
  unfold bind at 1.
  destruct (ensure env _ _ Q_TEXT_LAST_APP _ _ w3) as [[i4 | e4] w4] eqn:H4;
    apply ensure_post in H4 as (Hd4 & Hs4 & n4 & Hq4 & He4).
  2: { intros [= <- <-]. split; [congruence |]. exists (news_of n1 n2 n3 n4).
       unfold all_news. simpl.
       split; [rewrite Hq4, Hq3, Hq2, Hq1, Hq0; by rewrite <- !app_assoc |].
       split; [intros []; simpl;
               eauto using ensured_at_most_one, at_most_one_nil | done]. }
  unfold bind, AsyncStorage.setItem, ret. intros [= <- <-]. simpl.
  split; [congruence |]. exists (news_of n1 n2 n3 n4).
  unfold all_news. simpl.
  split; [rewrite Hq4, Hq3, Hq2, Hq1, Hq0; by rewrite <- !app_assoc |].
  split; [intros []; simpl; eauto using ensured_at_most_one |].
  intros qids [= <-] []; simpl; by apply ensured_resolved.
Qed.

Lemma found_is_Some fetched t row :
  row ∈ fetched -> q_question row = t ->
  exists row', found fetched t = Some row'.
Proof.
  intros Hin Ht. destruct (found fetched t) as [row' |] eqn:Hf; [eauto |].
  by destruct (found_None _ _ _ Hf Hin).
Qed.

Lemma created_for_not_found fetched s s' row0 n :
  found fetched (slot_text s) = Some row0 ->
  at_most_one_for fetched (slot_text s') n ->
  List.filter (has_text (slot_text s)) n = [].
Proof.
  intros Hfound [-> | (row & -> & Htext & Hnone & _)]; [done |].
  simpl. unfold has_text. rewrite Htext.
  destruct (String.eqb_spec (slot_text s') (slot_text s)) as [Heq | _];
    [| done].
  apply slot_text_inj in Heq as ->. congruence.
Qed.

(** Where the lookup of a resolution does find the question.  A
    resolution that finds no valid cache looks the four texts up in the
    list [supaGetQuestions] returns.  For each slot whose text is carried
    by a question of the store that this list holds (an active one), no
    question with that text is created, and the identifier returned for
    the slot is that of such a question. *)
Lemma registry_reuses_active_question
    (env : Env) (w w' : World) (r : Outcome UsageQuestionIds.t) (s : Slot) :
  cached_qids JSON_parse (storage w !! STORAGE_QIDS) = None ->
  resolve env w = (r, w') ->
  (exists row, row ∈ questions w /\ active_or_null row = true /\
               q_question row = slot_text s) ->
  List.filter (has_text (slot_text s)) (questions w')
  = List.filter (has_text (slot_text s)) (questions w) /\
  forall qids, r = Ok qids ->
    exists row, row ∈ questions w /\ active_or_null row = true /\
                q_question row = slot_text s /\
                q_id row = slot_id s qids.
Proof.
  intros Hcache Hres (row & Hin & Hact & Htext).
  destruct (resolve_store_path _ _ _ _ Hcache Hres)
    as (_ & news & Hq & Hone & Hok).
  destruct (found_is_Some (select_questions w) (slot_text s) row)
    as [row0 Hfound]; [by apply select_questions_elem | done |].
  split.
  - rewrite Hq. unfold all_news. rewrite !List.filter_app.
    rewrite (created_for_not_found (select_questions w) s SlotTotal row0 (news SlotTotal)) by auto.
    rewrite (created_for_not_found (select_questions w) s SlotSocial row0 (news SlotSocial)) by auto.
    rewrite (created_for_not_found (select_questions w) s SlotMusic row0 (news SlotMusic)) by auto.
    rewrite (created_for_not_found (select_questions w) s SlotLastApp row0 (news SlotLastApp)) by auto.
    by rewrite !app_nil_r.
  - intros qids ->. specialize (Hok qids eq_refl s).
    unfold resolved_to in Hok. rewrite Hfound in Hok.
    destruct Hok as [_ Hid]. exists row0.
    apply found_Some in Hfound as [Hin0 Htext0].
    apply select_questions_elem in Hin0 as [Hin0 Hact0]. done.
Qed.

(** After a successful resolution through the store every slot text is
    carried by an active question. *)
Lemma resolve_registers env w qids w' s :
  cached_qids JSON_parse (storage w !! STORAGE_QIDS) = None ->
  resolve env w = (Ok qids, w') ->
  exists row, row ∈ questions w' /\ active_or_null row = true /\
              q_question row = slot_text s /\ q_id row = slot_id s qids.
Proof.
  intros Hcache Hres.
  destruct (resolve_store_path _ _ _ _ Hcache Hres)
    as (_ & news & Hq & Hone & Hok).
  specialize (Hok qids eq_refl s). unfold resolved_to in Hok.
  destruct (found _ _) as [row0 |] eqn:Hfound.
  - destruct Hok as [_ Hid]. exists row0.
    apply found_Some in Hfound as [Hin0 Htext0].
    apply select_questions_elem in Hin0 as [Hin0 Hact0].
    rewrite Hq. split; [| done]. apply elem_of_app. by left.
  - destruct Hok as (row & Hnews & (Htext & _ & _ & Hact) & Hid).
    exists row. rewrite Hq. split.
    + apply elem_of_app. right. unfold all_news.
      destruct s; simpl in Hnews; rewrite Hnews; set_solver.
    + unfold active_or_null. by rewrite Hact.
Qed.

(** Registering twice: after a first successful resolution through the
    store and the loss of the cache, a second resolution creates no
    question. *)
Lemma second_resolution_creates_nothing env env' w qids w1 w1' r2 w2 :
  cached_qids JSON_parse (storage w !! STORAGE_QIDS) = None ->
  resolve env w = (Ok qids, w1) ->
  questions w1' = questions w1 ->
  cached_qids JSON_parse (storage w1' !! STORAGE_QIDS) = None ->
  resolve env' w1' = (r2, w2) ->
  questions w2 = questions w1'.
Proof.
  intros Hcache Hres Hsame Hlost Hres2.
  destruct (resolve_store_path _ _ _ _ Hlost Hres2)
    as (_ & news & Hq & Hone & _).
  assert (Hnil : forall s, news s = []).
  { intros s. destruct (Hone s) as [-> | (row & _ & _ & Hnone & _)]; [done |].
    destruct (resolve_registers _ _ _ _ s Hcache Hres)
      as (row1 & Hin & Hact & Htext & _).
    rewrite <- Hsame in Hin.
    destruct (found_is_Some (select_questions w1') (slot_text s) row1)
      as [row' Hfound]; [by apply select_questions_elem | done |].
    congruence. }
  rewrite Hq. unfold all_news. rewrite !Hnil. by rewrite app_nil_r.
Qed.


End Registry.

(** *** Registering twice returns the same identifiers *)

Lemma row_le_trans a b c :
  row_le a b = true -> row_le b c = true -> row_le a c = true.
Proof.
  unfold row_le.
  destruct (q_order a), (q_order b), (q_order c); try done;
    rewrite ?orb_true_iff, ?andb_true_iff, ?Z.ltb_lt, ?Z.eqb_eq, ?Z.leb_le;
    lia.
Qed.

Lemma row_le_total a b : row_le a b = false -> row_le b a = true.
Proof.
  unfold row_le.
  destruct (q_order a), (q_order b); try done;
    rewrite ?orb_false_iff, ?andb_false_iff, ?orb_true_iff, ?andb_true_iff,
      ?Z.ltb_lt, ?Z.eqb_eq, ?Z.leb_le, ?Z.ltb_ge, ?Z.eqb_neq, ?Z.leb_gt;
    lia.
Qed.

Lemma insert_row_below x l :
  Forall (fun z => row_le x z = true) l -> insert_row x l = x :: l.
Proof.
  destruct l as [| y l]; [done |]. intros [Hy _]%Forall_cons.
  simpl. by rewrite Hy.
Qed.

Lemma insert_row_sorted x l : rows_sorted l -> rows_sorted (insert_row x l).
Proof.
  unfold rows_sorted. induction 1 as [| y l Hsorted IH Hy]; simpl.
  - repeat constructor.
  - destruct (row_le x y) eqn:Hxy.
    + constructor; [by constructor |]. constructor; [done |].
      eapply Forall_impl; [exact Hy |]. intros z Hz. by eapply row_le_trans.
    + constructor; [done |].
      rewrite insert_row_Permutation. constructor; [| done].
      by apply row_le_total.
Qed.

Lemma order_rows_sorted l : rows_sorted (order_rows l).
Proof.
  induction l as [| x l IH]; simpl; [constructor | by apply insert_row_sorted].
Qed.

Lemma filter_insert_row (P : QuestionRow -> bool) x l :
  rows_sorted l ->
  List.filter P (insert_row x l)
  = if P x then insert_row x (List.filter P l) else List.filter P l.
Proof.
  unfold rows_sorted. induction 1 as [| y l Hsorted IH Hy].
  - simpl. by destruct (P x).
  - cbn [insert_row]. destruct (row_le x y) eqn:Hxy.
    + cbn [List.filter]. destruct (P x); [| done].
      symmetry. apply insert_row_below.
      assert (Hall : Forall (fun z => row_le x z = true) (y :: l)).
      { constructor; [done |]. eapply Forall_impl; [exact Hy |].
        intros z Hz. by eapply row_le_trans. }
      apply Forall_forall. intros z Hz.
      change (if P y then y :: List.filter P l else List.filter P l)
        with (List.filter P (y :: l)) in Hz.
      apply list_elem_of_In, filter_In in Hz as [Hz _].
      rewrite Forall_forall in Hall. by apply Hall, list_elem_of_In.
    + cbn [List.filter]. rewrite IH.
      destruct (P y), (P x); try done. simpl. by rewrite Hxy.
Qed.

Lemma filter_order_rows (P : QuestionRow -> bool) l :
  List.filter P (order_rows l) = order_rows (List.filter P l).
Proof.
  induction l as [| x l IH]; [done |].
  cbn [order_rows foldr List.filter].
  rewrite filter_insert_row by apply order_rows_sorted.
  fold (order_rows l). rewrite IH. by destruct (P x).
Qed.

(** Rows added to the table that do not carry the text [t] do not change
    what the text lookup finds for [t]. *)
Lemma found_after_insertions w w' news t :
  questions w' = (questions w ++ news)%list ->
  List.filter (has_text t) news = [] ->
  found (select_questions w') t = found (select_questions w) t.
Proof.
  intros Hq Hnone. unfold found, select_questions.
  rewrite !filter_order_rows. do 2 f_equal.
  rewrite Hq, List.filter_app, List.filter_app.
  assert (Hcomm : forall l : list QuestionRow,
    List.filter (has_text t) (List.filter active_or_null l)
    = List.filter active_or_null (List.filter (has_text t) l)).
  { induction l as [| r l IH]; simpl; [done |].
    destruct (active_or_null r) eqn:Ha, (has_text t r) eqn:Ht; simpl;
      rewrite ?Ha, ?Ht, IH; done. }
  rewrite (Hcomm news), Hnone. simpl. by rewrite app_nil_r.
Qed.

Section RoundTrip.

Variable JSON_parse : string -> option JSON.
Variable JSON_stringify : JSON -> string.

Local Abbreviation resolve :=
  (ensureUsageQuestions JSON_parse JSON_stringify).

Lemma all_news_elem news r :
  r ∈ all_news news <-> exists s : Slot, r ∈ news s.
Proof.
  unfold all_news. rewrite !elem_of_app. split.
  - intros [? | [? | [? | ?]]]; eauto.
  - intros [[] ?]; auto.
Qed.

Lemma all_news_without fetched news t :
  (forall s, at_most_one_for fetched (slot_text s) (news s)) ->
  (exists row, found fetched t = Some row) ->
  List.filter (has_text t) (all_news news) = [].
Proof.
  intros Hone [row0 Hfound].
  assert (Hs : forall s, List.filter (has_text t) (news s) = []).
  { intros s. destruct (Hone s) as [-> | (row & -> & Htext & Hnone & _)];
      [done |].
    simpl. unfold has_text. rewrite Htext.
    destruct (String.eqb_spec (slot_text s) t) as [Heq | _]; [| done].
    congruence. }
  unfold all_news. rewrite !List.filter_app, !Hs. done.
Qed.

(** Registering twice: a first successful resolution through the store,
    the loss of the cache, and a second resolution.  The second one creates
    no question and, when it succeeds, returns the four identifiers of the
    first. *)
Lemma registry_round_trip env env' w q1 w1 w1' r2 w2 :
  cached_qids JSON_parse (storage w !! STORAGE_QIDS) = None ->
  resolve env w = (Ok q1, w1) ->
  questions w1' = questions w1 ->
  cached_qids JSON_parse (storage w1' !! STORAGE_QIDS) = None ->
  resolve env' w1' = (r2, w2) ->
  questions w2 = questions w1' /\
  forall q2, r2 = Ok q2 -> q2 = q1.
Proof.
  intros Hcache Hres Hsame Hlost Hres2.
  split.
  { exact (second_resolution_creates_nothing JSON_parse JSON_stringify
             env env' w q1 w1 w1' r2 w2 Hcache Hres Hsame Hlost Hres2). }
  intros q2 ->.
  destruct (resolve_store_path _ _ _ _ _ _ Hcache Hres)
    as (_ & news & Hq & Hone & Hok).
  destruct (resolve_store_path _ _ _ _ _ _ Hlost Hres2)
    as (_ & news2 & _ & _ & Hok2).
  specialize (Hok q1 eq_refl). specialize (Hok2 q2 eq_refl).
  rewrite <- Hsame in Hq.
  assert (Hslot : forall s, slot_id s q2 = slot_id s q1).
  { intros s. specialize (Hok s). specialize (Hok2 s).
    unfold resolved_to in Hok, Hok2.
    destruct (found (select_questions w) (slot_text s)) as [row0 |] eqn:Hf0.
    - destruct Hok as [_ ->].
      rewrite (found_after_insertions w w1' (all_news news)) in Hok2;
        [| done | eapply all_news_without; eauto].
      rewrite Hf0 in Hok2. by destruct Hok2 as [_ ->].
    - destruct Hok as (row & Hn & (Htext & _ & _ & Hact) & <-).
      destruct (found (select_questions w1') (slot_text s)) as [row' |]
        eqn:Hf1.
      + destruct Hok2 as [_ ->]. f_equal.
        apply found_Some in Hf1 as [Hin1 Htext1].
        apply select_questions_elem in Hin1 as [Hin1 Hact1].
        rewrite Hq in Hin1. apply elem_of_app in Hin1 as [Hold | Hnew].
        * destruct (found_None _ _ row' Hf0);
            [by apply select_questions_elem | done].
        * apply all_news_elem in Hnew as [s' Hs'].
          destruct (Hone s') as [Hnil | (r' & Hn' & Htext' & _)];
            rewrite ?Hnil, ?Hn' in Hs'.
          { by apply elem_of_nil in Hs'. }
          apply list_elem_of_singleton in Hs' as ->.
          assert (s' = s) as -> by (apply slot_text_inj; congruence).
          congruence.
      + exfalso. destruct (found_None _ _ row Hf1); [| done].
        apply select_questions_elem. rewrite Hq. split.
        * apply elem_of_app. right. apply all_news_elem. exists s.
          rewrite Hn. by apply list_elem_of_singleton.
        * unfold active_or_null. by rewrite Hact. }
  pose proof (Hslot SlotTotal) as H1. pose proof (Hslot SlotSocial) as H2.
  pose proof (Hslot SlotMusic) as H3. pose proof (Hslot SlotLastApp) as H4.
  destruct q1, q2. simpl in *. congruence.
Qed.

End RoundTrip.

(** ** The theorems at concrete worlds *)

(** The summary of the specification's example (7 260 000 ms in total,
    1 800 000 ms social, none for music, last application "Example") is
    written as the four values 121, 30, 0 and "Example", all dated today
    with one submission time. *)
Lemma submitted_payloads :
  (fun e => (e_question_id e, e_date e, e_time e, e_value e, e_for_day e))
    <$> diary_entries Witness.submitted
  = [(1, "2025-01-31", "21:00", VNumber 121, today);
     (2, "2025-01-31", "21:00", VNumber 30, today);
     (3, "2025-01-31", "21:00", VNumber 0, today);
     (4, "2025-01-31", "21:00", VString "Example", today)].
Proof. vm_compute. reflexivity. Qed.

Lemma once_per_local_day_witness :
  Sample.run (Sample.phone 21 0) Sample.installed
  = (Ok true, Witness.submitted) /\
  exists w2,
    Witness.run_each Witness.later_triggers Witness.submitted
    = (replicate 4 (Ok false), w2) /\
    quiet Witness.submitted w2.
Proof.
  split; [vm_compute; reflexivity |].
  apply (once_per_local_day RefJSON.parse RefJSON.stringify
           (Sample.phone 21 0) Sample.installed Witness.submitted
           Witness.later_triggers).
  - vm_compute. reflexivity.
  - repeat constructor.
Defined.

Lemma collector_failure_is_atomic_witness :
  collector_raises (Sample.device "android" (Some Sample.failing_module) 21 0) /\
  (exists e w',
     runOnceNow RefJSON.parse RefJSON.stringify
       (Sample.device "android" (Some Sample.failing_module) 21 0)
       Sample.installed = (Throw e, w') /\
     quiet Sample.installed w') /\
  (exists r w',
     Sample.run (Sample.device "android" (Some Sample.failing_module) 21 0)
       Sample.installed = (r, w') /\
     r <> Ok true /\ quiet Sample.installed w').
Proof.
  assert (Hraise : collector_raises
            (Sample.device "android" (Some Sample.failing_module) 21 0)).
  { intros cfg w. eexists _, _. vm_compute. reflexivity. }
  split; [exact Hraise |].
  exact (collector_failure_is_atomic RefJSON.parse RefJSON.stringify
           (Sample.device "android" (Some Sample.failing_module) 21 0)
           {| at_ := None; targetHHmm := None; enforce := Some true |}
           Sample.installed Hraise).
Defined.

Lemma gate_short_circuits_witness :
  holds (Sample.device "android" None 21 0) CollectorAvailable = false /\
  exists p,
    first_failure (Sample.device "android" None 21 0) = Some p /\
    holds (Sample.device "android" None 21 0) p = false /\
    Forall (fun q => holds (Sample.device "android" None 21 0) q = true)
      (earlier p) /\
    Sample.run (Sample.device "android" None 21 0) Sample.installed
    = (Ok false, replay (trail p) Sample.installed) /\
    quiet Sample.installed (replay (trail p) Sample.installed).
Proof.
  split; [reflexivity |].
  apply (gate_short_circuits RefJSON.parse RefJSON.stringify
           (Sample.device "android" None 21 0) Sample.installed).
  exists CollectorAvailable. reflexivity.
Defined.

Lemma hasUsageAccess_total_witness :
  access_unknown (Sample.device "ios" (Some Sample.usage_module) 21 0) /\
  exists b w',
    hasUsageAccess (Sample.device "ios" (Some Sample.usage_module) 21 0)
      Sample.installed = (Ok b, w') /\
    quiet Sample.installed w' /\
    (access_unknown (Sample.device "ios" (Some Sample.usage_module) 21 0) ->
     b = false).
Proof.
  split.
  - left. simpl. discriminate.
  - exact (hasUsageAccess_total
             (Sample.device "ios" (Some Sample.usage_module) 21 0)
             Sample.installed).
Defined.


Lemma registry_reuses_active_question_witness :
  let out := Sample.resolve (Sample.phone 21 0) Witness.one_registered in
  cached_qids RefJSON.parse (storage Witness.one_registered !! STORAGE_QIDS)
  = None /\
  (exists row, row ∈ questions Witness.one_registered /\
               active_or_null row = true /\
               q_question row = slot_text SlotTotal) /\
  List.filter (has_text (slot_text SlotTotal)) (questions (snd out))
  = List.filter (has_text (slot_text SlotTotal))
      (questions Witness.one_registered) /\
  forall qids, fst out = Ok qids ->
    exists row, row ∈ questions Witness.one_registered /\
                active_or_null row = true /\
                q_question row = slot_text SlotTotal /\
                q_id row = slot_id SlotTotal qids.
Proof.
  intros out.
  assert (Hcache : cached_qids RefJSON.parse
                     (storage Witness.one_registered !! STORAGE_QIDS) = None)
    by (vm_compute; reflexivity).
  assert (Hrow : exists row, row ∈ questions Witness.one_registered /\
                             active_or_null row = true /\
                             q_question row = slot_text SlotTotal).
  { exists (Witness.auto_row 1 Q_TEXT_TOTAL true).
    split; [apply list_elem_of_In; simpl; auto | split; reflexivity]. }
  split; [exact Hcache |]. split; [exact Hrow |].
  apply (registry_reuses_active_question RefJSON.parse RefJSON.stringify
           (Sample.phone 21 0) Witness.one_registered (snd out) (fst out)
           SlotTotal Hcache); [apply surjective_pairing | exact Hrow].
Defined.

(** C4: the code run at the input where it departs from the claim.  The
    four auto-questions exist in the store, the total-time one has been
    deactivated, and the cache holds their identifiers.  The first
    resolution is served by the cache.  After the cache is lost the
    store still holds a question with the total-time text (id 1), but the
    second resolution looks the texts up in the list of active questions
    only: it does not find it, creates a second question with the same
    text (id 5) and returns the new identifier, where the module's own
    description has the questions created once if they do not exist yet. *)
Lemma deactivated_question_is_duplicated :
  let w :=
    with_storage
      (insert STORAGE_QIDS
         (RefJSON.stringify
            (qids_json {| UsageQuestionIds.totalMinutes := 1;
                          UsageQuestionIds.socialMinutes := 2;
                          UsageQuestionIds.musicMinutes := 3;
                          UsageQuestionIds.lastApp := 4 |})))
      (Witness.with_questions
         [Witness.auto_row 1 Q_TEXT_TOTAL false;
          Witness.auto_row 2 Q_TEXT_SOCIAL true;
          Witness.auto_row 3 Q_TEXT_MUSIC true;
          Witness.auto_row 4 Q_TEXT_LAST_APP true] 5 Sample.installed) in
  let first := Sample.resolve (Sample.phone 21 0) w in
  let lost := with_storage (delete STORAGE_QIDS) (snd first) in
  let second := Sample.resolve (Sample.phone 21 0) lost in
  fst first
  = Ok {| UsageQuestionIds.totalMinutes := 1;
          UsageQuestionIds.socialMinutes := 2;
          UsageQuestionIds.musicMinutes := 3;
          UsageQuestionIds.lastApp := 4 |} /\
  questions lost = questions w /\
  In (Witness.auto_row 1 Q_TEXT_TOTAL false) (questions lost) /\
  fst second
  = Ok {| UsageQuestionIds.totalMinutes := 5;
          UsageQuestionIds.socialMinutes := 2;
          UsageQuestionIds.musicMinutes := 3;
          UsageQuestionIds.lastApp := 4 |} /\
  q_id <$> List.filter (has_text Q_TEXT_TOTAL) (questions (snd second))
  = [1; 5].
Proof.
  intros w first lost second.
  split; [vm_compute; reflexivity |].
  split; [vm_compute; reflexivity |].
  split; [left; vm_compute; reflexivity |].
  split; vm_compute; reflexivity.
Qed.



(** * Further properties *)

(** ** Formatting of times and dates *)

Lemma two_digits_below_100 n : (n < 100)%nat -> two_digits n = true.
Proof.
  intros Hn.
  assert (Hall : forallb two_digits (seq 0 100) = true)
    by (vm_compute; reflexivity).
  rewrite forallb_forall in Hall. apply Hall, in_seq. lia.
Qed.

Lemma two_digits_shape n :
  two_digits n = true ->
  exists a b,
    JS.padStart0 2 (pretty n) = String a (String b "") /\
    JS.is_digit a = true /\ JS.is_digit b = true /\
    10 * JS.digit_value a + JS.digit_value b = Z.of_nat n.
Proof.
  unfold two_digits.
  destruct (JS.padStart0 2 (pretty n)) as [| a [| b [| ? ?]]]; try done.
  rewrite !andb_true_iff, Z.eqb_eq. intros [[Ha Hb] Hv]. by exists a, b.
Qed.

Lemma toHHmm_shape (d : Date) :
  (getHours d < 24)%nat -> (getMinutes d < 60)%nat ->
  exists a b c e,
    toHHmm d = String a (String b (String ":" (String c (String e "")))) /\
    JS.is_digit a = true /\ JS.is_digit b = true /\
    JS.is_digit c = true /\ JS.is_digit e = true /\
    (10 * JS.digit_value a + JS.digit_value b) * 60
    + (10 * JS.digit_value c + JS.digit_value e)
    = toMinutesSinceMidnight d.
Proof.
  intros Hh Hm.
  destruct (two_digits_shape (getHours d)) as (a & b & Hhs & Ha & Hb & Hhv);
    [apply two_digits_below_100; lia |].
  destruct (two_digits_shape (getMinutes d)) as (c & e & Hms & Hc & He & Hmv);
    [apply two_digits_below_100; lia |].
  exists a, b, c, e. unfold toHHmm, toMinutesSinceMidnight.
  rewrite Hhs, Hms. repeat split; try done. lia.
Qed.

(** X1: the [HH:mm] text of a clock time is always of the validated
    format, and reading it back gives the minutes since midnight. *)
Theorem toHHmm_round_trip (d : Date) :
  (getHours d < 24)%nat -> (getMinutes d < 60)%nat ->
  regex_test HHMM_REGEX (toHHmm d) = true /\
  hhmmToMinutes (toHHmm d) = Some (toMinutesSinceMidnight d).
Proof.
  intros Hh Hm.
  destruct (toHHmm_shape d Hh Hm)
    as (a & b & c & e & Hshape & Ha & Hb & Hc & He & Hv).
  assert (Hre : regex_test HHMM_REGEX (toHHmm d) = true).
  { apply HHMM_REGEX_shape. by exists a, b, c, e. }
  split; [exact Hre |].
  rewrite hhmmToMinutes_HHMM by exact Hre. rewrite Hshape.
  cbn [target_minutes]. by rewrite Hv.
Qed.

Lemma toHHmm_round_trip_witness :
  regex_test HHMM_REGEX (toHHmm (Sample.clock 7 5)) = true /\
  hhmmToMinutes (toHHmm (Sample.clock 7 5))
  = Some (toMinutesSinceMidnight (Sample.clock 7 5)).
Proof. apply (toHHmm_round_trip (Sample.clock 7 5)); simpl; lia. Defined.

(** X2: the time picker of the settings screen always stores what it
    shows: for the picked clock time (or, when none is passed, the time
    the picker shows) the handler stores its [HH:mm] text, no error is
    swallowed, the mark is left alone, and from then on the due check
    compares the clock with exactly the picked minutes. *)
Theorem onChange_sets_threshold
    (shown : Date) (selected : option Date) (w : World) :
  (getHours (picked shown selected) < 24)%nat ->
  (getMinutes (picked shown selected) < 60)%nat ->
  exists w',
    onChange shown selected w = (Ok tt, w') /\
    storage w'
    = <[STORAGE_DAILY_TARGET_HHMM := toHHmm (picked shown selected)]>
        (storage w) /\
    getDailyTargetTime w' = (Ok (toHHmm (picked shown selected)), w') /\
    forall now,
      due_check now w'
      = (Ok (bool_decide
               (storage w !! STORAGE_LAST_SUBMITTED_DATE
                <> Some (toISODate now) /\
                toMinutesSinceMidnight (picked shown selected)
                <= toMinutesSinceMidnight now)), w').
Proof.
  unfold onChange. generalize (picked shown selected). intros d Hh Hm.
  cbv zeta.
  destruct (toHHmm_shape d Hh Hm)
    as (a & b & c & e & Hshape & Ha & Hb & Hc & He & Hv).
  assert (Hre : regex_test HHMM_REGEX (toHHmm d) = true).
  { apply HHMM_REGEX_shape. by exists a, b, c, e. }
  assert (Hmin : target_minutes (toHHmm d) = toMinutesSinceMidnight d).
  { rewrite Hshape. cbn [target_minutes]. exact Hv. }
  unfold try_catch, setDailyTargetTime. rewrite Hre. simpl.
  eexists. split; [reflexivity |]. split; [reflexivity |].
  assert (Hget : storage
            (record (EvStorageSet STORAGE_DAILY_TARGET_HHMM (toHHmm d))
               (with_storage
                  (insert STORAGE_DAILY_TARGET_HHMM (toHHmm d)) w))
            !! STORAGE_DAILY_TARGET_HHMM = Some (toHHmm d))
    by (simpl; apply lookup_insert_eq).
  split; [by apply getDailyTargetTime_stored |].
  intros now. rewrite due_check_run, Hget. do 3 f_equal.
  assert (Htarget : target_of (Some (toHHmm d)) = toHHmm d).
  { unfold target_of. by rewrite Hre, (HHMM_REGEX_truthy _ Hre). }
  rewrite Htarget, Hmin.
  simpl. by rewrite lookup_insert_ne.
Qed.

Lemma onChange_sets_threshold_witness :
  exists w',
    onChange (Sample.clock 21 0) (Some (Sample.clock 7 5)) Witness.submitted
    = (Ok tt, w') /\
    storage w'
    = <[STORAGE_DAILY_TARGET_HHMM :=
          toHHmm (picked (Sample.clock 21 0) (Some (Sample.clock 7 5)))]>
        (storage Witness.submitted) /\
    getDailyTargetTime w'
    = (Ok (toHHmm (picked (Sample.clock 21 0) (Some (Sample.clock 7 5)))),
       w') /\
    forall now,
      due_check now w'
      = (Ok (bool_decide
               (storage Witness.submitted !! STORAGE_LAST_SUBMITTED_DATE
                <> Some (toISODate now) /\
                toMinutesSinceMidnight
                  (picked (Sample.clock 21 0) (Some (Sample.clock 7 5)))
                <= toMinutesSinceMidnight now)), w').
Proof.
  apply (onChange_sets_threshold (Sample.clock 21 0)
           (Some (Sample.clock 7 5)) Witness.submitted);
    simpl; lia.
Defined.

Lemma append_inj_tail (a b c d : string) :
  String.length c = String.length d ->
  a +:+ c = b +:+ d -> a = b /\ c = d.
Proof.
  assert (Hlen : forall x y : string,
    String.length (x +:+ y) = (String.length x + String.length y)%nat).
  { induction x as [| ? x IH]; intros y; simpl; [done | by rewrite IH]. }
  revert b. induction a as [| x a IH]; intros [| y b] Hcd Heq; simpl in Heq.
  - done.
  - apply (f_equal String.length) in Heq.
    rewrite ?Hlen in Heq. simpl in Heq. rewrite ?Hlen in Heq. lia.
  - apply (f_equal String.length) in Heq.
    rewrite ?Hlen in Heq. simpl in Heq. rewrite ?Hlen in Heq. lia.
  - injection Heq as -> Heq. destruct (IH b Hcd Heq) as [-> ->]. done.
Qed.

Lemma toISODate_inj_valid (d1 d2 : Date) :
  valid_date d1 -> valid_date d2 ->
  toISODate d1 = toISODate d2 -> same_local_day d1 d2.
Proof.
  intros (Hm1 & Hd1 & _) (Hm2 & Hd2 & _).
  unfold toISODate.
  destruct (two_digits_shape (getMonth d1 + 1))
    as (a1 & b1 & -> & _ & _ & Hv1); [apply two_digits_below_100; lia |].
  destruct (two_digits_shape (getMonth d2 + 1))
    as (a2 & b2 & -> & _ & _ & Hv2); [apply two_digits_below_100; lia |].
  destruct (two_digits_shape (getDate d1))
    as (c1 & e1 & -> & _ & _ & Hw1); [apply two_digits_below_100; lia |].
  destruct (two_digits_shape (getDate d2))
    as (c2 & e2 & -> & _ & _ & Hw2); [apply two_digits_below_100; lia |].
  intros [Hy Hrest]%append_inj_tail; [| done].
  apply (inj pretty) in Hy. injection Hrest as -> -> -> ->.
  unfold same_local_day. repeat split; [done | lia | lia].
Qed.

(** X3: on dates within the ranges of a JavaScript [Date], two dates get
    the same mark text exactly when they are the same local calendar day. *)
Theorem toISODate_same_day (d1 d2 : Date) :
  valid_date d1 -> valid_date d2 ->
  toISODate d1 = toISODate d2 <-> same_local_day d1 d2.
Proof.
  intros Hv1 Hv2. split.
  - by apply toISODate_inj_valid.
  - apply same_local_day_ISO.
Qed.

Lemma toISODate_same_day_witness :
  toISODate (Sample.clock 7 5) = toISODate (Sample.clock 21 0) <->
  same_local_day (Sample.clock 7 5) (Sample.clock 21 0).
Proof.
  apply (toISODate_same_day (Sample.clock 7 5) (Sample.clock 21 0));
    unfold valid_date; simpl; lia.
Defined.

(** ** Frames of the local store *)

#[global] Instance only_keys_preorder ks : PreOrder (only_keys ks).
Proof.
  split.
  - by intros w k _.
  - intros w1 w2 w3 H12 H23 k Hk. by rewrite H23, H12.
Qed.

Lemma only_keys_weaken ks ks' w w' :
  ks ⊆ ks' -> only_keys ks w w' -> only_keys ks' w w'.
Proof. intros Hsub H k Hk. apply H. set_solver. Qed.

Lemma only_keys_same_storage ks w w' :
  storage w' = storage w -> only_keys ks w w'.
Proof. intros Hs k _. by rewrite Hs. Qed.

Section Keeps.

Context {R : World -> World -> Prop} `{!PreOrder R}.

Lemma keeps_ret {A} (a : A) : keeps R (ret a).
Proof. intros w r w' [= <- <-]. reflexivity. Qed.

Lemma keeps_throw {A} (e : Error) : keeps R (@throw A e).
Proof. intros w r w' [= <- <-]. reflexivity. Qed.

Lemma keeps_bind {A B} (m : M A) (k : A -> M B) :
  keeps R m -> (forall a, keeps R (k a)) -> keeps R (bind m k).
Proof.
  intros Hm Hk w r w'. unfold bind.
  destruct (m w) as [[a | e] w1] eqn:Hrun.
  - intros Hk'. etransitivity; [by eapply Hm | by eapply Hk].
  - intros [= <- <-]. by eapply Hm.
Qed.

Lemma keeps_try_catch {A} (m : M A) (h : Error -> M A) :
  keeps R m -> (forall e, keeps R (h e)) -> keeps R (try_catch m h).
Proof.
  intros Hm Hh w r w'. unfold try_catch.
  destruct (m w) as [[a | e] w1] eqn:Hrun.
  - intros [= <- <-]. by eapply Hm.
  - intros Hh'. etransitivity; [by eapply Hm | by eapply Hh].
Qed.

Lemma keeps_for_each {A} (f : A -> M unit) (xs : list A) :
  (forall x, keeps R (f x)) -> keeps R (for_each f xs).
Proof.
  intros Hf. induction xs as [| x xs IH]; simpl.
  - apply keeps_ret.
  - apply keeps_bind; [apply Hf | intros _; exact IH].
Qed.

End Keeps.

Lemma keeps_same_storage {A} ks (m : M A) :
  (forall w r w', m w = (r, w') -> storage w' = storage w) ->
  keeps (only_keys ks) m.
Proof. intros H w r w' Hrun. eapply only_keys_same_storage, H, Hrun. Qed.

Lemma request_storage {A} env req ctx (effect : World -> A * World) :
  (forall w, storage (snd (effect w)) = storage w) ->
  forall w r w', request env req ctx effect w = (r, w') ->
                 storage w' = storage w.
Proof.
  intros Heff w r w'. unfold request.
  destruct (request_fails env (requests w)); [by intros [= <- <-] |].
  specialize (Heff (count_request (record (EvRequest req) w))).
  destruct (effect _) as [a w2]. by intros [= <- <-].
Qed.

Lemma getSupabaseClient_same env w r w' :
  getSupabaseClient env w = (r, w') -> w' = w.
Proof.
  unfold getSupabaseClient.
  destruct (blank_env _); [by intros [= <- <-] |].
  destruct (blank_env _); by intros [= <- <-].
Qed.

Lemma supaSetDiaryEntry_storage env entry w r w' :
  supaSetDiaryEntry env entry w = (r, w') -> storage w' = storage w.
Proof.
  unfold supaSetDiaryEntry, bind.
  destruct (getSupabaseClient env w) as [[[] | e] w0] eqn:Hc;
    apply getSupabaseClient_same in Hc as ->; [| by intros [= <- <-]].
  destruct (request env (DeleteEntries _ _ _) _ _ w) as [[[] | e] w1] eqn:H1;
    apply request_storage in H1; try done.
  - intros H2. apply request_storage in H2; [congruence | done].
  - intros [= <- <-]. done.
Qed.

Section StorageFrames.

Variable JSON_parse : string -> option JSON.
Variable JSON_stringify : JSON -> string.

Local Abbreviation run := (runIfDueNow JSON_parse JSON_stringify).
Local Abbreviation collect := (collectAndSubmit JSON_parse JSON_stringify).
Local Abbreviation resolve := (ensureUsageQuestions JSON_parse JSON_stringify).

Lemma ensure_storage env all m t answerType unit w r w' :
  ensure env all m t answerType unit w = (r, w') -> storage w' = storage w.
Proof.
  unfold ensure. destruct (m !! t); [by intros [= <- <-] |].
  unfold bind.
  destruct (supaInsertQuestion _ _ _) as [[q | e] w1] eqn:Hins;
    apply supaInsertQuestion_run in Hins as (_ & Hs & _);
    by intros [= <- <-].
Qed.

Lemma resolve_only_cache env : keeps (only_keys [STORAGE_QIDS]) (resolve env).
Proof.
  unfold ensureUsageQuestions.
  apply keeps_bind; [by apply keeps_same_storage; intros w r w' [= <- <-] |].
  intros cached. destruct (cached_qids _ _); [apply keeps_ret |].
  apply keeps_bind.
  { apply keeps_same_storage. intros w r w' Hget.
    by apply supaGetQuestions_run in Hget as (_ & _ & ? & _). }
  intros all.
  repeat (apply keeps_bind;
          [apply keeps_same_storage; intros w r w' He;
           by eapply ensure_storage | intros ?]).
  apply keeps_bind; [| intros ?; apply keeps_ret].
  intros w r w' [= <- <-] k Hk. simpl.
  apply lookup_insert_ne. set_solver.
Qed.

Lemma getTodayUsageSummary_storage env cfg w r w' :
  getTodayUsageSummary env cfg w = (r, w') -> storage w' = storage w.
Proof.
  intros Hrun. apply getTodayUsageSummary_quiet in Hrun as (Hp & _).
  unfold persisted in Hp. by injection Hp.
Qed.

Lemma collect_only_cache env opts :
  keeps (only_keys [STORAGE_QIDS]) (collect env opts).
Proof.
  unfold collectAndSubmit.
  apply keeps_bind.
  { apply keeps_same_storage. intros w r w' H.
    by eapply getTodayUsageSummary_storage. }
  intros summary. apply keeps_bind; [apply resolve_only_cache |].
  intros qids. apply keeps_bind.
  - apply keeps_for_each. intros entry. apply keeps_same_storage.
    intros w r w' H. by eapply supaSetDiaryEntry_storage.
  - intros _. apply keeps_same_storage. by intros w r w' [= <- <-].
Qed.

Lemma replay_trail_storage p w : storage (replay (trail p) w) = storage w.
Proof.
  destruct (trail_quiet p w) as (Hp & _). unfold persisted in Hp.
  by injection Hp.
Qed.

Lemma mark_is_not_cache_key :
  STORAGE_LAST_SUBMITTED_DATE ∉ [STORAGE_QIDS].
Proof. intros ?%list_elem_of_singleton. discriminate. Qed.

Lemma not_in_pair (k a b : string) : k ∉ [a; b] -> k <> a /\ k ∉ [b].
Proof.
  intros H. split.
  - intros ->. apply H. left.
  - intros Hb. apply H. by right.
Qed.

Lemma target_is_not_cache_key : STORAGE_DAILY_TARGET_HHMM ∉ [STORAGE_QIDS].
Proof. intros ?%list_elem_of_singleton. discriminate. Qed.

(** X4: an invocation of [runIfDueNow], whatever its outcome, changes no
    key of the local store other than the registry cache and the mark, and
    the mark is today's date after an invocation that returned [true] and
    what it was before after any other one (a skipped check, or an error
    thrown half-way through the writes). *)
Theorem mark_set_exactly_on_success
    (env : Env) (w w' : World) (r : Outcome bool) :
  run env w = (r, w') ->
  only_keys [STORAGE_QIDS; STORAGE_LAST_SUBMITTED_DATE] w w' /\
  storage w' !! STORAGE_LAST_SUBMITTED_DATE
  = match r with
    | Ok true => Some (toISODate (new_Date env))
    | _ => storage w !! STORAGE_LAST_SUBMITTED_DATE
    end.
Proof.
  pose proof (runIfDueNow_cases JSON_parse JSON_stringify env w) as Hcases.
  destruct (first_failure env) as [p |].
  { rewrite Hcases. intros [= <- <-]. rewrite replay_trail_storage.
    split; [| done]. apply only_keys_same_storage, replay_trail_storage. }
  simpl in Hcases. rewrite Hcases. clear Hcases.
  destruct (due_at _ _ _).
  2: { intros [= <- <-]. split; [| done]. by apply only_keys_same_storage. }
  unfold submit, bind.
  destruct (collectAndSubmit _ _ _ _ _) as [[[] | e] w2] eqn:Hcol;
    apply collect_only_cache in Hcol.
  - unfold markSubmittedForToday, AsyncStorage.setItem, ret.
    intros [= <- <-]. split; [| simpl; apply lookup_insert_eq].
    intros k [Hqids Hmark]%not_in_pair. simpl.
    rewrite lookup_insert_ne.
    + apply Hcol. intros ->%list_elem_of_singleton. done.
    + intros <-. apply Hmark. left.
  - intros [= <- <-]. split.
    + eapply only_keys_weaken; [| exact Hcol].
      intros k ->%list_elem_of_singleton. left.
    + by rewrite (Hcol _ mark_is_not_cache_key).
Qed.

(** X5: the manual trigger [runOnceNow] leaves the gate as it finds it:
    whatever its outcome, the mark and the target time are untouched, so
    the due check answers afterwards what it answered before. *)
Theorem runOnceNow_leaves_gate
    (env : Env) (w w' : World) (r : Outcome unit) (now : Date) :
  runOnceNow JSON_parse JSON_stringify env w = (r, w') ->
  storage w' !! STORAGE_LAST_SUBMITTED_DATE
  = storage w !! STORAGE_LAST_SUBMITTED_DATE /\
  storage w' !! STORAGE_DAILY_TARGET_HHMM
  = storage w !! STORAGE_DAILY_TARGET_HHMM /\
  fst (due_check now w') = fst (due_check now w).
Proof.
  unfold runOnceNow. intros Hcol%collect_only_cache.
  pose proof (Hcol _ mark_is_not_cache_key) as Hmark.
  pose proof (Hcol _ target_is_not_cache_key) as Htarget.
  split; [exact Hmark |]. split; [exact Htarget |].
  rewrite !due_check_run. simpl. by rewrite Hmark, Htarget.
Qed.

(** X6: the debug reset removes the mark and the registry cache and
    nothing else: the target time and the tables stay, the next
    resolution finds no cache whatever the codec, and the due check is
    decided by the clock alone, also on a day that was already
    submitted. *)
Theorem debugResetState_reopens_gate (w : World) :
  exists w',
    __debugResetState w = (Ok tt, w') /\
    only_keys [STORAGE_QIDS; STORAGE_LAST_SUBMITTED_DATE] w w' /\
    same_tables w w' /\
    cached_qids JSON_parse (storage w' !! STORAGE_QIDS) = None /\
    forall now,
      due_check now w'
      = (Ok (bool_decide
               (target_minutes
                  (target_of (storage w !! STORAGE_DAILY_TARGET_HHMM))
                <= toMinutesSinceMidnight now)), w').
Proof.
  eexists. split; [reflexivity |].
  split.
  { intros k [Hqids Hmark]%not_in_pair. simpl.
    rewrite !lookup_delete_ne; [done | |]; intros <-;
      [apply Hmark; left | done]. }
  split; [done |]. split.
  { simpl. by rewrite lookup_delete_eq. }
  intros now. rewrite due_check_run. simpl.
  rewrite lookup_delete_ne, lookup_delete_eq by done.
  rewrite !lookup_delete_ne by done. do 2 f_equal.
  apply bool_decide_ext. split; [by intros [_ ?] | by intros ?; split].
Qed.

(** X7: the mark of one day does not hold back the next: after a
    successful invocation, on any other local calendar day the due check
    is decided by the clock and the stored target time alone. *)
Theorem other_day_is_due_again (env env' : Env) (w w1 : World) :
  run env w = (Ok true, w1) ->
  valid_date (new_Date env) -> valid_date (new_Date env') ->
  ~ same_local_day (new_Date env') (new_Date env) ->
  due_check (new_Date env') w1
  = (Ok (bool_decide
           (target_minutes
              (target_of (storage w !! STORAGE_DAILY_TARGET_HHMM))
            <= toMinutesSinceMidnight (new_Date env'))), w1).
Proof.
  intros Hrun Hv Hv' Hother.
  pose proof (run_success_marks _ _ _ _ _ Hrun) as Hmark.
  rewrite due_check_run, Hmark. do 2 f_equal.
  assert (Htarget : storage w1 !! STORAGE_DAILY_TARGET_HHMM
                    = storage w !! STORAGE_DAILY_TARGET_HHMM).
  { pose proof (runIfDueNow_cases JSON_parse JSON_stringify env w) as Hcases.
    destruct (first_failure env) as [p |]; [by rewrite Hrun in Hcases |].
    simpl in Hcases. rewrite Hrun in Hcases.
    destruct (due_at _ _ _); [| done].
    unfold submit, bind in Hcases.
    destruct (collectAndSubmit _ _ _ _ _) as [[[] | e] w2] eqn:Hcol;
      [| done].
    apply collect_only_cache in Hcol.
    unfold markSubmittedForToday, AsyncStorage.setItem, ret in Hcases.
    injection Hcases as ->. simpl. rewrite lookup_insert_ne by done.
    apply (Hcol _ target_is_not_cache_key). }
  rewrite Htarget. apply bool_decide_ext. split; [by intros [_ ?] |].
  intros Hle. split; [| done]. intros [= Hiso]. apply Hother.
  by apply toISODate_inj_valid.
Qed.

End StorageFrames.

(** ** The registry cache *)

Lemma areValidQids_complete v :
  areValidQids v = true ->
  forall s, typeof_number (get_prop v (slot_key s)) = true.
Proof.
  unfold areValidQids. rewrite !andb_true_iff.
  intros ((((_ & H1) & H2) & H3) & H4) []; done.
Qed.

Section Cache.

Variable JSON_parse : string -> option JSON.
Variable JSON_stringify : JSON -> string.

Local Abbreviation run := (runIfDueNow JSON_parse JSON_stringify).
Local Abbreviation resolve := (ensureUsageQuestions JSON_parse JSON_stringify).
Local Abbreviation tick := (task JSON_parse JSON_stringify).
Local Abbreviation tick_each := (task_each JSON_parse JSON_stringify).

(** A successful resolution through the store ends by caching what it
    returns, and it has consulted the store. *)
Lemma resolve_writes_cache env w q w1 :
  cached_qids JSON_parse (storage w !! STORAGE_QIDS) = None ->
  resolve env w = (Ok q, w1) ->
  storage w1 !! STORAGE_QIDS = Some (JSON_stringify (qids_json q)) /\
  (requests w < requests w1)%nat.
Proof.
  intros Hcache. unfold ensureUsageQuestions.
  unfold bind at 1. unfold AsyncStorage.getItem at 1. rewrite Hcache.
  unfold bind at 1.
  destruct (supaGetQuestions env w) as [[all | e] w0] eqn:Hget; [| done].
  assert (Hreq : (requests w < requests w0)%nat).
  { revert Hget. unfold supaGetQuestions, bind, request.
    destruct (getSupabaseClient env w) as [[[] | e] wc] eqn:Hc;
      apply getSupabaseClient_same in Hc as ->; [| done].
    destruct (request_fails env (requests w)); [done |].
    intros [= _ <-]. simpl. lia. }
  assert (Hmono : forall t a u wa i wb,
    ensure env all
      (Map_of ((fun q => (Question.question q, q)) <$> all)) t a u wa
    = (Ok i, wb) -> (requests wa <= requests wb)%nat).
  { intros t a u wa i wb. unfold ensure.
    destruct (_ !! t); [by intros [= _ <-] |].
    unfold supaInsertQuestion, request, bind.
    destruct (getSupabaseClient env wa) as [[[] | e] wc] eqn:Hc;
      apply getSupabaseClient_same in Hc as ->; simpl; [| done].
    destruct (request_fails env (requests wa)); simpl; [done |].
    intros [= _ <-]. simpl. lia. }
  unfold bind at 1.
  destruct (ensure env _ _ Q_TEXT_TOTAL _ _ w0) as [[i1 | e1] w1'] eqn:H1;
    [| done].
  unfold bind at 1.
  destruct (ensure env _ _ Q_TEXT_SOCIAL _ _ w1') as [[i2 | e2] w2] eqn:H2;
    [| done].
  unfold bind at 1.
  destruct (ensure env _ _ Q_TEXT_MUSIC _ _ w2) as [[i3 | e3] w3] eqn:H3;
    [| done].
  unfold bind at 1.
  destruct (ensure env _ _ Q_TEXT_LAST_APP _ _ w3) as [[i4 | e4] w4] eqn:H4;
    [| done].
  apply Hmono in H1, H2, H3, H4.
  unfold bind, AsyncStorage.setItem, ret. intros [= <- <-]. simpl.
  split; [apply lookup_insert_eq | lia].
Qed.

(** X8: the cache serves the next resolution.  After a successful
    resolution through the store, if the codec reads back what it wrote,
    every further resolution returns the same four identifiers and leaves
    the world exactly as it is: nothing is sent to the store, whatever the
    environment (also without configuration or network). *)
Theorem cache_serves_next_resolution
    (env env' : Env) (w w1 : World) (q : UsageQuestionIds.t) :
  cached_qids JSON_parse (storage w !! STORAGE_QIDS) = None ->
  resolve env w = (Ok q, w1) ->
  cached_qids JSON_parse (Some (JSON_stringify (qids_json q))) = Some q ->
  resolve env' w1 = (Ok q, w1).
Proof.
  intros Hcache Hres Hcodec.
  destruct (resolve_writes_cache _ _ _ _ Hcache Hres) as [Hstored _].
  unfold ensureUsageQuestions, bind, AsyncStorage.getItem.
  by rewrite Hstored, Hcodec.
Qed.

(** X9: a cache that is incomplete is discarded and rebuilt.  When the
    cached object lacks a numeric identifier for one of the four slots, a
    successful resolution has consulted the store and ends with the cache
    holding the complete registry it returns. *)
Theorem partial_cache_is_rebuilt
    (env : Env) (w w1 : World) (s : string) (v : JSON) (slot : Slot)
    (q : UsageQuestionIds.t) :
  storage w !! STORAGE_QIDS = Some s ->
  JSON_parse s = Some v ->
  typeof_number (get_prop v (slot_key slot)) = false ->
  resolve env w = (Ok q, w1) ->
  storage w1 !! STORAGE_QIDS = Some (JSON_stringify (qids_json q)) /\
  (requests w < requests w1)%nat.
Proof.
  intros Hstored Hparse Hslot Hres.
  apply (resolve_writes_cache env w q w1); [| done].
  rewrite Hstored. unfold cached_qids.
  destruct (JS.truthy_string s); [| done]. rewrite Hparse.
  destruct (areValidQids v) eqn:Hvalid; [| done].
  pose proof (areValidQids_complete v Hvalid slot). congruence.
Qed.

(** ** The background task *)

Lemma task_marked env w :
  storage w !! STORAGE_LAST_SUBMITTED_DATE
  = Some (toISODate (new_Date env)) ->
  exists w', tick env w = (Ok NoData, w') /\ quiet w w'.
Proof.
  intros Hmark.
  destruct (run_marked JSON_parse JSON_stringify env w Hmark)
    as (w' & Hrun & Hq).
  exists w'. unfold task, try_catch, bind. by rewrite Hrun.
Qed.

(** The task turns the three outcomes of [runIfDueNow] into its three
    results and never throws. *)
Lemma task_cases (env : Env) (w : World) :
  tick env w
  = (Ok match fst (run env w) with
        | Ok true => NewData
        | Ok false => NoData
        | Throw _ => Failed
        end, snd (run env w)).
Proof.
  unfold task, try_catch, bind, console_log, ret.
  by destruct (run env w) as [[[|] | e] w'].
Qed.

(** An invocation that throws was due, and has touched the cache at most. *)
Lemma run_throw_frame env w e w' :
  run env w = (Throw e, w') ->
  first_failure env = None /\
  fst (due_check (new_Date env) w) = Ok true /\
  only_keys [STORAGE_QIDS] w w'.
Proof.
  pose proof (runIfDueNow_cases JSON_parse JSON_stringify env w) as Hcases.
  destruct (first_failure env) as [p |]; [by rewrite Hcases |].
  simpl in Hcases. rewrite Hcases. clear Hcases.
  unfold due_check, bind. rewrite getDailyTargetTime_run, isSubmissionDue_run.
  destruct (due_at _ _ _); [| done].
  unfold submit, bind.
  destruct (collectAndSubmit _ _ _ _ _) as [[[] | e'] w2] eqn:Hcol; [done |].
  intros [= <- <-]. split; [done |]. split; [done |].
  apply (collect_only_cache JSON_parse JSON_stringify) in Hcol.
  intros k Hk. rewrite (Hcol k Hk). done.
Qed.

(** X10: a failed tick is retried.  The background task reports [Failed]
    only for a tick whose preconditions all held and whose check was due,
    and it leaves the mark and the target time as they were: every due
    check answers afterwards what it answered before, so the next tick of
    the day tries again. *)
Theorem failed_task_keeps_day_open (env : Env) (w w' : World) :
  tick env w = (Ok Failed, w') ->
  first_failure env = None /\
  fst (due_check (new_Date env) w) = Ok true /\
  fst (due_check (new_Date env) w') = Ok true /\
  forall now, fst (due_check now w') = fst (due_check now w).
Proof.
  rewrite task_cases.
  destruct (run env w) as [[[|] | e] w1] eqn:Hrun; simpl; intros [= <-].
  apply run_throw_frame in Hrun as (Hpre & Hdue & Hkeys).
  assert (Hsame : forall now, fst (due_check now w1) = fst (due_check now w)).
  { intros now. rewrite !due_check_run. simpl.
    by rewrite (Hkeys _ mark_is_not_cache_key),
      (Hkeys _ target_is_not_cache_key). }
  split; [exact Hpre |]. split; [exact Hdue |].
  split; [by rewrite Hsame | exact Hsame].
Qed.

(** X11: the background task reports new data at most once per local
    day: after a tick that reported [NewData], every later tick of that
    day, whatever its environment, reports [NoData] and writes nothing. *)
Theorem task_new_data_once_per_day
    (env : Env) (w w1 : World) (later : list Env) :
  tick env w = (Ok NewData, w1) ->
  Forall (fun env' => same_local_day (new_Date env') (new_Date env)) later ->
  exists w2,
    tick_each later w1 = (replicate (length later) (Ok NoData), w2) /\
    quiet w1 w2.
Proof.
  intros Htask Hday.
  assert (Hmark : storage w1 !! STORAGE_LAST_SUBMITTED_DATE
                  = Some (toISODate (new_Date env))).
  { revert Htask. unfold task, try_catch, bind, console_log, ret.
    destruct (run env w) as [[[|] | e] w'] eqn:Hrun; intros [= <-]; [].
    by eapply run_success_marks. }
  clear Htask. revert w1 Hmark.
  induction Hday as [| env' later Hsame Hday IH]; intros w1 Hmark.
  - exists w1. split; [done | apply quiet_refl].
  - destruct (task_marked env' w1) as (w2 & Hrun & Hq1).
    { by rewrite (same_local_day_ISO _ _ Hsame). }
    destruct (IH w2) as (w3 & Hrest & Hq2).
    { destruct Hq1 as (Hp & _). unfold persisted in Hp.
      injection Hp as -> _ _ _ _. done. }
    exists w3. simpl. rewrite Hrun, Hrest.
    split; [done | by eapply quiet_trans].
Qed.

End Cache.

(** ** Operations of the remote data store *)

Lemma toQuestion_inj r1 r2 : toQuestion r1 = toQuestion r2 -> r1 = r2.
Proof. destruct r1, r2. unfold toQuestion. simpl. by intros [= -> -> -> -> -> -> -> -> -> ->]. Qed.



(** X13: insert, then list.  A question that [supaInsertQuestion] has
    created gets the next identifier of the store, the order value 0 when
    none is given, and is active unless created inactive; the next
    successful [supaGetQuestions] lists it exactly when it is active. *)
Theorem inserted_question_is_listed
    (env env' : Env) (input q : Question.t) (w w1 w2 : World)
    (qs : list Question.t) :
  supaInsertQuestion env input w = (Ok q, w1) ->
  supaGetQuestions env' w1 = (Ok qs, w2) ->
  Question.id q = next_question_id w /\
  Question.question q = Question.question input /\
  Question.order q = Some (default 0 (Question.order input)) /\
  Question.active q = Some (default true (Question.active input)) /\
  (q ∈ qs <-> Question.active input <> Some false).
Proof.
  intros Hins Hget.
  apply supaInsertQuestion_run in Hins as (_ & _ & [[[e [=]] _] | [[= ->] Hq]]).
  apply supaGetQuestions_run in Hget as (_ & _ & _ & [[e [=]] | [= ->]]).
  repeat split; try done.
  - intros (row & Heq & Hin)%list_elem_of_fmap.
    apply toQuestion_inj in Heq as <-.
    apply select_questions_elem in Hin as [_ Hact].
    unfold active_or_null in Hact. simpl in Hact.
    by destruct (Question.active input) as [[|] |].
  - intros Hact. apply list_elem_of_fmap. eexists. split; [done |].
    apply select_questions_elem. rewrite Hq. split.
    + apply elem_of_app. right. by apply list_elem_of_singleton.
    + unfold active_or_null. simpl.
      by destruct (Question.active input) as [[|] |].
Qed.

Lemma for_each_insert_rows env entries : forall w w',
  for_each (supaInsertDiaryEntry env) entries w = (Ok tt, w') ->
  diary_entries w'
  = (diary_entries w ++ insert_rows (next_entry_id w) entries)%list /\
  next_entry_id w' = next_entry_id w + Z.of_nat (length entries).
Proof.
  induction entries as [| entry rest IH]; intros w w'; simpl.
  - intros [= <-]. rewrite app_nil_r. split; [done | lia].
  - unfold bind at 1.
    destruct (supaInsertDiaryEntry env entry w) as [[[] | e] w1] eqn:H1;
      [| done].
    intros Hrest. apply IH in Hrest as [Hd Hn].
    revert H1. unfold supaInsertDiaryEntry, bind, request.
    destruct (getSupabaseClient env w) as [[[] | e] wc] eqn:Hc;
      apply getSupabaseClient_same in Hc as ->; [| done].
    destruct (request_fails env (requests w)); [done |].
    intros [= <-]. simpl in Hd, Hn. rewrite Hd, Hn.
    rewrite <- app_assoc. split; [done | lia].
Qed.

(** X15: a successful bulk insert leaves the entries table that as many
    single inserts, all successful, leave: the same rows with the same
    identifiers in the same order. *)
Theorem bulk_insert_is_repeated_insert
    (env env' : Env) (entries : list DiaryEntry.t) (w w1 w2 : World) :
  supaInsertDiaryEntriesBulk env entries w = (Ok tt, w1) ->
  for_each (supaInsertDiaryEntry env') entries w = (Ok tt, w2) ->
  diary_entries w1 = diary_entries w2 /\ next_entry_id w1 = next_entry_id w2.
Proof.
  intros Hbulk Hsingle.
  apply for_each_insert_rows in Hsingle as [Hd2 Hn2].
  revert Hbulk. unfold supaInsertDiaryEntriesBulk.
  destruct entries as [| entry rest].
  { intros [= <-]. simpl in *. rewrite Hd2, Hn2, app_nil_r.
    split; [done | lia]. }
  unfold bind, request_as.
  destruct (getSupabaseClient env w) as [[[] | e] wc] eqn:Hc;
    apply getSupabaseClient_same in Hc as ->; [| done].
  destruct (request_fails env (requests w)); [done |].
  assert (Hframe : forall lines : list RemoteRequest,
    let w1 := foldr (fun r => record (EvRequest r)) w lines in
    diary_entries w1 = diary_entries w /\
    next_entry_id w1 = next_entry_id w).
  { induction lines as [| l lines IH]; simpl; [done | exact IH]. }
  destruct (Hframe (insert_line <$> entry :: rest)) as (Hd & Hn).
  intros [= <-]. simpl in Hd, Hn |- *. by rewrite Hd, Hn, Hd2, Hn2.
Qed.



(** ** What a submission writes *)

Lemma supaSetDiaryEntry_ok env entry w w' :
  supaSetDiaryEntry env entry w = (Ok tt, w') ->
  diary_entries w'
  = (List.filter
       (fun r => negb (same_slot (DiaryEntry.questionID entry)
                         (DiaryEntry.date entry) (for_day_of entry) r))
       (diary_entries w)
     ++ [toDiaryEntryInsert (next_entry_id w) entry])%list.
Proof.
  unfold supaSetDiaryEntry, getSupabaseClient, request, bind.
  destruct (blank_env (EXPO_PUBLIC_SUPABASE_URL env)); simpl; [done |].
  destruct (blank_env (EXPO_PUBLIC_SUPABASE_ANON_KEY env)); simpl; [done |].
  destruct (request_fails env (requests w)); simpl; [done |].
  destruct (request_fails env (S (requests w))); simpl; [done |].
  by intros [= <-].
Qed.

Lemma filter_after_set_same (P : EntryRow -> bool) l r :
  P r = true ->
  List.filter P (List.filter (fun x => negb (P x)) l ++ [r]) = [r].
Proof.
  intros Hr. rewrite List.filter_app, filter_negb_filter. simpl.
  by rewrite Hr.
Qed.

Lemma filter_after_set_other (P Q : EntryRow -> bool) l r :
  (forall x, P x = true -> Q x = false) -> P r = false ->
  List.filter P (List.filter (fun x => negb (Q x)) l ++ [r])
  = List.filter P l.
Proof.
  intros Hpq Hr. rewrite List.filter_app. simpl. rewrite Hr, app_nil_r.
  induction l as [| x l IH]; simpl; [done |].
  destruct (P x) eqn:Hx.
  - rewrite (Hpq x Hx). simpl. by rewrite Hx, IH.
  - destruct (Q x); simpl; [done |]. by rewrite Hx.
Qed.

Lemma same_slot_other a b d f x :
  a <> b -> same_slot a d f x = true -> same_slot b d f x = false.
Proof.
  unfold same_slot. intros Hab [[Ha _]%andb_true_iff _]%andb_true_iff.
  apply Z.eqb_eq in Ha. subst a.
  by rewrite (proj2 (Z.eqb_neq _ _) Hab).
Qed.

Lemma getTodayUsageSummary_ok env cfg w summary w' :
  getTodayUsageSummary env cfg w = (Ok summary, w') ->
  exists n f,
    _native env = Some n /\ getTodayUsageSummary_native n = Some f /\
    f {| social := default (social DefaultPackages) (cfg ≫= fst);
         music := default (music DefaultPackages) (cfg ≫= snd) |}
    = Resolves summary /\
    w' = record (EvNativeCall "getTodayUsageSummary") w.
Proof.
  unfold getTodayUsageSummary, guardAndroid, guardNative, bind.
  destruct (is_android env); simpl; [| done].
  destruct (isUsageStatsAvailable env); simpl; [| done].
  unfold call_getTodayUsageSummary, bind, emit.
  destruct (_native env) as [[granted [f |]] |] eqn:Hn; simpl; try done.
  destruct (f _) eqn:Hf; simpl; [| done].
  intros [= <- <-].
  by exists {| isUsageAccessGranted := granted;
               getTodayUsageSummary_native := Some f |}, f.
Qed.

Section Submission.

Variable JSON_parse : string -> option JSON.
Variable JSON_stringify : JSON -> string.

Local Abbreviation collect := (collectAndSubmit JSON_parse JSON_stringify).
Local Abbreviation resolve := (ensureUsageQuestions JSON_parse JSON_stringify).

(** X18: what a successful [collectAndSubmit] leaves in the store.  The
    summary is the one the native module returned for the default package
    lists, the four question identifiers are the ones the registry
    resolved to right after the native call; and when these are pairwise
    different, each of them has exactly one answer for today, dated today,
    with the one submission time, holding the rounded minutes of its
    duration, or for the last slot the label of the last application. *)
Theorem collectAndSubmit_writes_four_answers
    (env : Env) (opts : CollectOptions) (w w' : World) :
  collect env opts w = (Ok tt, w') ->
  let now := default (new_Date env) (at_ opts) in
  let day := toISODate now in
  let time := default (toHHmm now) (targetHHmm opts) in
  exists summary qids,
    (exists n f,
       _native env = Some n /\ getTodayUsageSummary_native n = Some f /\
       f DefaultPackages = Resolves summary) /\
    fst (resolve env (record (EvNativeCall "getTodayUsageSummary") w))
    = Ok qids /\
    (NoDup ((fun s => slot_id s qids)
              <$> [SlotTotal; SlotSocial; SlotMusic; SlotLastApp]) ->
     forall s,
       answers (slot_id s qids) day w' = [(day, time, slot_value summary s)]).
Proof.
  intros Hrun now day time. revert Hrun. unfold collectAndSubmit.
  unfold bind at 1.
  destruct (getTodayUsageSummary env _ w) as [[summary | e] w0] eqn:Hsum;
    [| done].
  apply getTodayUsageSummary_ok in Hsum as (n & f & Hn & Hf & Hcall & ->).
  unfold bind at 1.
  destruct (ensureUsageQuestions _ _ env _) as [[qids | e] w1] eqn:Hres;
    [| done].
  clear Hres. cbv zeta. fold now day time. cbn [for_each].
  unfold bind at 1.
  do 4 (unfold bind at 1;
        match goal with
        | |- context [supaSetDiaryEntry ?env' ?e ?wk] =>
            let H := fresh "Hset" in
            destruct (supaSetDiaryEntry env' e wk) as [[u | ?] ?] eqn:H;
            [destruct u; apply supaSetDiaryEntry_ok in H | done]
        end).
  rename Hset into H1, Hset0 into H2, Hset1 into H3, Hset2 into H4.
  cbn [DiaryEntry.questionID DiaryEntry.date for_day_of DiaryEntry.forDay
       default from_option] in H1, H2, H3, H4.
  unfold bind, ret, log, emit. intros [= <-].
  exists summary, qids.
  split; [exists n, f; repeat split; [exact Hn | exact Hf | exact Hcall] |].
  split; [reflexivity |].
  intros Hdup s. unfold answers. cbn [diary_entries record].
  cbn [fmap list_fmap] in Hdup.
  apply NoDup_cons in Hdup as [Hn1 Hdup].
  apply NoDup_cons in Hdup as [Hn2 Hdup].
  apply NoDup_cons in Hdup as [Hn3 _].
  repeat rewrite not_elem_of_cons in Hn1.
  repeat rewrite not_elem_of_cons in Hn2.
  repeat rewrite not_elem_of_cons in Hn3.
  destruct Hn1 as (H12 & H13 & H14 & _), Hn2 as (H23 & H24 & _),
    Hn3 as (H34 & _).
  assert (Hrow : forall i qid v,
    same_slot qid day today
      (toDiaryEntryInsert i
         {| DiaryEntry.id := 0; DiaryEntry.questionID := qid;
            DiaryEntry.date := day; DiaryEntry.time := time;
            DiaryEntry.value := v; DiaryEntry.forDay := Some today |})
    = true).
  { intros i qid v. unfold same_slot, toDiaryEntryInsert. simpl.
    by rewrite Z.eqb_refl, String.eqb_refl. }
  assert (Hother : forall a b i v, a <> b ->
    same_slot a day today
      (toDiaryEntryInsert i
         {| DiaryEntry.id := 0; DiaryEntry.questionID := b;
            DiaryEntry.date := day; DiaryEntry.time := time;
            DiaryEntry.value := v; DiaryEntry.forDay := Some today |})
    = false).
  { intros a b i v Hab. unfold same_slot, toDiaryEntryInsert. simpl.
    by rewrite (proj2 (Z.eqb_neq _ _) (not_eq_sym Hab)). }
  assert (Hstep_other : forall a b l i v, a <> b ->
    List.filter (same_slot a day today)
      (List.filter (fun x => negb (same_slot b day today x)) l
       ++ [toDiaryEntryInsert i
             {| DiaryEntry.id := 0; DiaryEntry.questionID := b;
                DiaryEntry.date := day; DiaryEntry.time := time;
                DiaryEntry.value := v; DiaryEntry.forDay := Some today |}])
    = List.filter (same_slot a day today) l).
  { intros a b l i v Hab. apply filter_after_set_other.
    - intros x. by apply same_slot_other.
    - by apply Hother. }
  assert (Hstep_same : forall a l i v,
    (fun r => (e_date r, e_time r, e_value r))
      <$> List.filter (same_slot a day today)
            (List.filter (fun x => negb (same_slot a day today x)) l
             ++ [toDiaryEntryInsert i
                   {| DiaryEntry.id := 0; DiaryEntry.questionID := a;
                      DiaryEntry.date := day; DiaryEntry.time := time;
                      DiaryEntry.value := v;
                      DiaryEntry.forDay := Some today |}])
    = [(day, time, v)]).
  { intros a l i v. by rewrite filter_after_set_same by apply Hrow. }
  rewrite H4.
  destruct s; cbn [slot_id slot_value].
  - rewrite Hstep_other, H3, Hstep_other, H2, Hstep_other, H1 by done.
    apply Hstep_same.
  - rewrite Hstep_other, H3, Hstep_other, H2 by done. apply Hstep_same.
  - rewrite Hstep_other, H3 by done. apply Hstep_same.
  - apply Hstep_same.
Qed.

End Submission.

(** ** Errors of the collector and of the gate *)

(** X19: [getTodayUsageSummary] fails in three ways only, and calls the
    native module in the last one only: off Android with the platform
    error, on Android without a usable module with the module error, and
    otherwise only when the native call itself rejects.  Calling a missing
    method (a [TypeError]) is excluded by the feature detection, and the
    local store and the tables are never touched. *)
Theorem getTodayUsageSummary_errors
    (env : Env) (cfg : option (option (list string) * option (list string)))
    (w w' : World) (e : Error) :
  getTodayUsageSummary env cfg w = (Throw e, w') ->
  quiet w w' /\
  match e with
  | PlatformUnsupported => is_android env = false /\ w' = w
  | CollectorUnavailable =>
      is_android env = true /\ isUsageStatsAvailable env = false /\ w' = w
  | CollectorFailed =>
      isUsageStatsAvailable env = true /\
      journal w' = EvNativeCall "getTodayUsageSummary" :: journal w
  | _ => False
  end.
Proof.
  intros Hrun. split; [by eapply getTodayUsageSummary_quiet |].
  revert Hrun. unfold getTodayUsageSummary, guardAndroid, guardNative, bind.
  destruct (is_android env) eqn:Ha; simpl; [| by intros [= <- <-]].
  destruct (isUsageStatsAvailable env) eqn:Hav; simpl;
    [| by intros [= <- <-]].
  destruct (isUsageStatsAvailable_true _ Hav) as (_ & n & s & f & Hn & Hs & Hf).
  unfold call_getTodayUsageSummary, bind, emit. rewrite Hn.
  destruct n as [granted summary]. simpl in Hs, Hf. subst. simpl.
  destruct (f _); simpl; [done |]. by intros [= <- <-].
Qed.

(** X20: the label written for the last application is never empty: it is
    the label of the application when that is not empty, else its package
    name when that is not empty, else the fixed text "Unbekannt", which is
    also what is written when no application is reported. *)
Theorem lastAppLabel_never_empty (summary : UsageSummary) :
  JS.truthy_string (lastAppLabel summary) = true /\
  match lastApp summary with
  | None => lastAppLabel summary = "Unbekannt"
  | Some app =>
      lastAppLabel summary
      = if JS.truthy_string (default "" (label app))
        then default "" (label app)
        else if JS.truthy_string (packageName app) then packageName app
             else "Unbekannt"
  end.
Proof.
  unfold lastAppLabel.
  destruct (lastApp summary) as [[pkg [l |] used] |]; simpl.
  - destruct (JS.truthy_string l) eqn:Hl; [done |].
    by destruct (JS.truthy_string pkg) eqn:Hp.
  - by destruct (JS.truthy_string pkg) eqn:Hp.
  - done.
Qed.

Section GateErrors.

Variable JSON_parse : string -> option JSON.
Variable JSON_stringify : JSON -> string.

Local Abbreviation run := (runIfDueNow JSON_parse JSON_stringify).
Local Abbreviation collect := (collectAndSubmit JSON_parse JSON_stringify).

(** X21: [runIfDueNow] throws only out of the submission itself: when it
    throws, every precondition held, the day was due, and the error is the
    one [collectAndSubmit] threw, called with the clock of the invocation
    and the stored target time as submission time. *)
Theorem runIfDueNow_throws_only_from_submission
    (env : Env) (w w' : World) (e : Error) :
  run env w = (Throw e, w') ->
  first_failure env = None /\
  fst (due_check (new_Date env) w) = Ok true /\
  collect env
    {| at_ := Some (new_Date env);
       targetHHmm := Some (target_of (storage w !! STORAGE_DAILY_TARGET_HHMM));
       enforce := Some false |}
    (record (EvNativeCall "isUsageAccessGranted") w)
  = (Throw e, w').
Proof.
  pose proof (runIfDueNow_cases JSON_parse JSON_stringify env w) as Hcases.
  destruct (first_failure env) as [p |]; [by rewrite Hcases |].
  simpl in Hcases. rewrite Hcases. clear Hcases.
  unfold due_check, bind. rewrite getDailyTargetTime_run, isSubmissionDue_run.
  destruct (due_at _ _ _); [| done].
  unfold submit, bind.
  destruct (collectAndSubmit _ _ _ _ _) as [[[] | e'] w2]; [done |].
  by intros [= <- <-].
Qed.

End GateErrors.

(** ** The permission shown on launch *)

(** X22: the permission check the settings screen runs on launch never
    throws, writes nothing, and answers exactly as [hasUsageAccess]; its
    answer is [true] exactly when the three preconditions of the gate that
    depend on the device hold, so that no precondition of [runIfDueNow]
    fails exactly when it answers [true] and the store is configured. *)
Theorem ensureUsagePermissionOnLaunch_is_device_gate (env : Env) (w : World) :
  exists w',
    ensureUsagePermissionOnLaunch env w = (Ok (device_ready env), w') /\
    hasUsageAccess env w = (Ok (device_ready env), w') /\
    quiet w w' /\
    (first_failure env = None <->
     device_ready env = true /\ isSupabaseConfigured env = true).
Proof.
  assert (Hgate : first_failure env = None <->
            device_ready env = true /\ isSupabaseConfigured env = true).
  { unfold device_ready, first_failure. simpl.
    destruct (is_android env), (isSupabaseConfigured env),
      (isUsageStatsAvailable env), (access_granted env); simpl;
      (split; [intros ? | intros [? ?]]); done. }
  unfold ensureUsagePermissionOnLaunch, device_ready. simpl.
  destruct (is_android env) eqn:Ha; simpl.
  - destruct (isUsageStatsAvailable env) eqn:Hav; simpl.
    + rewrite (hasUsageAccess_when_available env w Ha Hav).
      eexists. split; [reflexivity |]. split; [reflexivity |].
      split; [apply quiet_record; done |].
      revert Hgate. unfold device_ready. simpl. by rewrite Ha, Hav.
    + unfold hasUsageAccess. rewrite Ha, Hav. simpl.
      exists w. split; [done |]. split; [done |].
      split; [apply quiet_refl |].
      revert Hgate. unfold device_ready. simpl. by rewrite Ha, Hav.
  - unfold hasUsageAccess. rewrite Ha. simpl.
    exists w. split; [done |]. split; [done |]. split; [apply quiet_refl |].
    revert Hgate. unfold device_ready. simpl. by rewrite Ha.
Qed.

(** ** The further properties on concrete worlds *)

Lemma mark_set_exactly_on_success_witness :
  Sample.run (Sample.phone 21 0) Sample.installed
  = (Ok true, Witness.submitted) /\
  only_keys [STORAGE_QIDS; STORAGE_LAST_SUBMITTED_DATE]
    Sample.installed Witness.submitted /\
  storage Witness.submitted !! STORAGE_LAST_SUBMITTED_DATE
  = Some (toISODate (new_Date (Sample.phone 21 0))).
Proof.
  assert (Hrun : Sample.run (Sample.phone 21 0) Sample.installed
                 = (Ok true, Witness.submitted)) by (vm_compute; reflexivity).
  split; [exact Hrun |].
  exact (mark_set_exactly_on_success RefJSON.parse RefJSON.stringify
           (Sample.phone 21 0) Sample.installed Witness.submitted (Ok true)
           Hrun).
Defined.

Lemma runOnceNow_leaves_gate_witness :
  let out :=
    runOnceNow RefJSON.parse RefJSON.stringify (Sample.phone 20 0)
      Sample.installed in
  fst out = Ok tt /\
  storage (snd out) !! STORAGE_LAST_SUBMITTED_DATE
  = storage Sample.installed !! STORAGE_LAST_SUBMITTED_DATE /\
  storage (snd out) !! STORAGE_DAILY_TARGET_HHMM
  = storage Sample.installed !! STORAGE_DAILY_TARGET_HHMM /\
  fst (due_check (Sample.clock 21 0) (snd out))
  = fst (due_check (Sample.clock 21 0) Sample.installed).
Proof.
  intros out. split; [vm_compute; reflexivity |].
  apply (runOnceNow_leaves_gate RefJSON.parse RefJSON.stringify
           (Sample.phone 20 0) Sample.installed (snd out) (fst out)
           (Sample.clock 21 0)).
  apply surjective_pairing.
Defined.

Lemma other_day_is_due_again_witness :
  Sample.run (Sample.phone 21 0) Sample.installed
  = (Ok true, Witness.submitted) /\
  ~ same_local_day (new_Date Scene.next_morning)
      (new_Date (Sample.phone 21 0)) /\
  due_check (new_Date Scene.next_morning) Witness.submitted
  = (Ok (bool_decide
           (target_minutes
              (target_of (storage Sample.installed
                          !! STORAGE_DAILY_TARGET_HHMM))
            <= toMinutesSinceMidnight (new_Date Scene.next_morning))),
     Witness.submitted).
Proof.
  assert (Hrun : Sample.run (Sample.phone 21 0) Sample.installed
                 = (Ok true, Witness.submitted)) by (vm_compute; reflexivity).
  assert (Hday : ~ same_local_day (new_Date Scene.next_morning)
                     (new_Date (Sample.phone 21 0))).
  { intros (_ & Hmonth & _). simpl in Hmonth. discriminate. }
  split; [exact Hrun |]. split; [exact Hday |].
  apply (other_day_is_due_again RefJSON.parse RefJSON.stringify
           (Sample.phone 21 0) Scene.next_morning Sample.installed
           Witness.submitted Hrun); [| | exact Hday].
  - unfold valid_date. simpl. lia.
  - unfold valid_date. simpl. lia.
Defined.

Lemma cache_serves_next_resolution_witness :
  let out := Sample.resolve (Sample.phone 21 0) Witness.one_question in
  let q := {| UsageQuestionIds.totalMinutes := 2;
              UsageQuestionIds.socialMinutes := 3;
              UsageQuestionIds.musicMinutes := 4;
              UsageQuestionIds.lastApp := 5 |} in
  fst out = Ok q /\
  isSupabaseConfigured Scene.unconfigured = false /\
  Sample.resolve Scene.unconfigured (snd out) = (Ok q, snd out).
Proof.
  intros out q.
  assert (Hout : out = (Ok q, snd out)) by (vm_compute; reflexivity).
  split; [by rewrite Hout |]. split; [reflexivity |].
  apply (cache_serves_next_resolution RefJSON.parse RefJSON.stringify
           (Sample.phone 21 0) Scene.unconfigured Witness.one_question
           (snd out) q); [| exact Hout |]; vm_compute; reflexivity.
Defined.

Lemma partial_cache_is_rebuilt_witness :
  let out := Sample.resolve (Sample.phone 21 0) Scene.partial_cache in
  let q := {| UsageQuestionIds.totalMinutes := 1;
              UsageQuestionIds.socialMinutes := 2;
              UsageQuestionIds.musicMinutes := 3;
              UsageQuestionIds.lastApp := 4 |} in
  RefJSON.parse (RefJSON.stringify Scene.three_slots)
  = Some (JObject [("musicMinutes", JNumber 3); ("socialMinutes", JNumber 2);
                   ("totalMinutes", JNumber 1)]) /\
  get_prop (JObject [("musicMinutes", JNumber 3);
                     ("socialMinutes", JNumber 2);
                     ("totalMinutes", JNumber 1)]) (slot_key SlotLastApp)
  = None /\
  fst out = Ok q /\
  storage (snd out) !! STORAGE_QIDS
  = Some (RefJSON.stringify (qids_json q)) /\
  (requests Scene.partial_cache < requests (snd out))%nat.
Proof.
  intros out q.
  assert (Hparse : RefJSON.parse (RefJSON.stringify Scene.three_slots)
                   = Some (JObject [("musicMinutes", JNumber 3);
                                    ("socialMinutes", JNumber 2);
                                    ("totalMinutes", JNumber 1)]))
    by (vm_compute; reflexivity).
  assert (Hout : out = (Ok q, snd out)) by (vm_compute; reflexivity).
  split; [exact Hparse |]. split; [reflexivity |].
  split; [by rewrite Hout |].
  apply (partial_cache_is_rebuilt RefJSON.parse RefJSON.stringify
           (Sample.phone 21 0) Scene.partial_cache (snd out)
           (RefJSON.stringify Scene.three_slots)
           (JObject [("musicMinutes", JNumber 3);
                     ("socialMinutes", JNumber 2);
                     ("totalMinutes", JNumber 1)])
           SlotLastApp q);
    [vm_compute; reflexivity | exact Hparse | reflexivity | exact Hout].
Defined.

Lemma task_new_data_once_per_day_witness :
  Scene.tick (Sample.phone 21 0) Sample.installed
  = (Ok NewData, Witness.submitted) /\
  exists w2,
    Scene.tick_each Witness.later_triggers Witness.submitted
    = (replicate (length Witness.later_triggers) (Ok NoData), w2) /\
    quiet Witness.submitted w2.
Proof.
  assert (Htick : Scene.tick (Sample.phone 21 0) Sample.installed
                  = (Ok NewData, Witness.submitted))
    by (vm_compute; reflexivity).
  split; [exact Htick |].
  apply (task_new_data_once_per_day RefJSON.parse RefJSON.stringify
           (Sample.phone 21 0) Sample.installed Witness.submitted
           Witness.later_triggers Htick).
  repeat constructor.
Defined.

Lemma inserted_question_is_listed_witness :
  let ins :=
    supaInsertQuestion (Sample.phone 21 0) Scene.parked
      Witness.one_question in
  let lst := supaGetQuestions (Sample.phone 21 0) (snd ins) in
  exists q qs,
    fst ins = Ok q /\ fst lst = Ok qs /\
    Question.id q = next_question_id Witness.one_question /\
    Question.question q = Question.question Scene.parked /\
    Question.order q = Some (default 0 (Question.order Scene.parked)) /\
    Question.active q = Some (default true (Question.active Scene.parked)) /\
    (q ∈ qs <-> Question.active Scene.parked <> Some false).
Proof.
  intros ins lst.
  destruct (fst ins) as [q | e] eqn:Hins; [| by vm_compute in Hins].
  destruct (fst lst) as [qs | e] eqn:Hlst; [| by vm_compute in Hlst].
  exists q, qs. split; [reflexivity |]. split; [reflexivity |].
  apply (inserted_question_is_listed (Sample.phone 21 0) (Sample.phone 21 0)
           Scene.parked q Witness.one_question (snd ins) (snd lst) qs).
  - rewrite <- Hins. apply surjective_pairing.
  - rewrite <- Hlst. apply surjective_pairing.
Defined.

Lemma bulk_insert_is_repeated_insert_witness :
  let bulk :=
    supaInsertDiaryEntriesBulk (Sample.phone 21 0) Scene.two_entries
      Witness.answered in
  let each :=
    for_each (supaInsertDiaryEntry (Sample.phone 21 0)) Scene.two_entries
      Witness.answered in
  fst bulk = Ok tt /\ fst each = Ok tt /\
  diary_entries (snd bulk) = diary_entries (snd each) /\
  next_entry_id (snd bulk) = next_entry_id (snd each).
Proof.
  intros bulk each.
  assert (Hbulk : bulk = (Ok tt, snd bulk)) by (vm_compute; reflexivity).
  assert (Heach : each = (Ok tt, snd each)) by (vm_compute; reflexivity).
  split; [by rewrite Hbulk |]. split; [by rewrite Heach |].
  exact (bulk_insert_is_repeated_insert (Sample.phone 21 0)
           (Sample.phone 21 0) Scene.two_entries Witness.answered
           (snd bulk) (snd each) Hbulk Heach).
Defined.


Lemma collectAndSubmit_writes_four_answers_witness :
  let env := Sample.phone 20 0 in
  let out := Scene.collect env Scene.manual Sample.installed in
  fst out = Ok tt /\
  let now := default (new_Date env) (at_ Scene.manual) in
  let day := toISODate now in
  let time := default (toHHmm now) (targetHHmm Scene.manual) in
  exists summary qids,
    (exists n f,
       _native env = Some n /\ getTodayUsageSummary_native n = Some f /\
       f DefaultPackages = Resolves summary) /\
    fst (Sample.resolve env
           (record (EvNativeCall "getTodayUsageSummary") Sample.installed))
    = Ok qids /\
    (NoDup ((fun s => slot_id s qids)
              <$> [SlotTotal; SlotSocial; SlotMusic; SlotLastApp]) ->
     forall s,
       answers (slot_id s qids) day (snd out)
       = [(day, time, slot_value summary s)]).
Proof.
  intros env out.
  assert (Hout : out = (Ok tt, snd out)) by (vm_compute; reflexivity).
  split; [by rewrite Hout |].
  exact (collectAndSubmit_writes_four_answers RefJSON.parse RefJSON.stringify
           env Scene.manual Sample.installed (snd out) Hout).
Defined.

Lemma getTodayUsageSummary_errors_witness :
  let env := Sample.device "android" (Some Sample.failing_module) 21 0 in
  let out := getTodayUsageSummary env None Sample.installed in
  fst out = Throw CollectorFailed /\
  quiet Sample.installed (snd out) /\
  isUsageStatsAvailable env = true /\
  journal (snd out)
  = EvNativeCall "getTodayUsageSummary" :: journal Sample.installed.
Proof.
  intros env out.
  assert (Hout : out = (Throw CollectorFailed, snd out))
    by (vm_compute; reflexivity).
  split; [by rewrite Hout |].
  exact (getTodayUsageSummary_errors env None Sample.installed (snd out)
           CollectorFailed Hout).
Defined.

Lemma runIfDueNow_throws_only_from_submission_witness :
  let env := Sample.device "android" (Some Sample.failing_module) 21 0 in
  let out := Sample.run env Sample.installed in
  fst out = Throw CollectorFailed /\
  first_failure env = None /\
  fst (due_check (new_Date env) Sample.installed) = Ok true /\
  Scene.collect env
    {| at_ := Some (new_Date env);
       targetHHmm :=
         Some (target_of (storage Sample.installed
                          !! STORAGE_DAILY_TARGET_HHMM));
       enforce := Some false |}
    (record (EvNativeCall "isUsageAccessGranted") Sample.installed)
  = (Throw CollectorFailed, snd out).
Proof.
  intros env out.
  assert (Hout : out = (Throw CollectorFailed, snd out))
    by (vm_compute; reflexivity).
  split; [by rewrite Hout |].
  exact (runIfDueNow_throws_only_from_submission RefJSON.parse
           RefJSON.stringify env Sample.installed (snd out) CollectorFailed
           Hout).
Defined.

Lemma failed_task_keeps_day_open_witness :
  let env := Sample.device "android" (Some Sample.failing_module) 21 0 in
  let out := Scene.tick env Sample.installed in
  fst out = Ok Failed /\
  first_failure env = None /\
  fst (due_check (new_Date env) Sample.installed) = Ok true /\
  fst (due_check (new_Date env) (snd out)) = Ok true /\
  forall now,
    fst (due_check now (snd out)) = fst (due_check now Sample.installed).
Proof.
  intros env out.
  assert (Hout : out = (Ok Failed, snd out)) by (vm_compute; reflexivity).
  split; [by rewrite Hout |].
  exact (failed_task_keeps_day_open RefJSON.parse RefJSON.stringify env
           Sample.installed (snd out) Hout).
Defined.
